(** * convert_to_text.py: OpenDocument to plain text, batch driver

    A shallow embedding of [src/convert_to_text.py] and the properties its
    specification states about it.

    Conventions of the embedding
    - a Python [str] is the list of its code points ([list N]);
    - an [xml.etree.ElementTree.Element] is the record [Element], tags and
      attribute names in Clark notation ([{uri}local]);
    - an exception is represented by its message ([str(e)]);
    - the zip archive reader and the XML parser are library code: an input
      file is represented by what they return for it ([container],
      [xml_text]);
    - the output directory is a finite map from file names to file texts;
      a write can fail, as the operating system decides ([write_fault]). *)

From Stdlib Require Import ZArith NArith DecimalString.
From stdpp Require Import base option list strings gmap sorting.

Local Open Scope N_scope.

(** ** Python strings *)

Abbreviation pystr := (list N).

(** A literal: the code points of an ASCII string. *)
Definition py (s : string) : pystr :=
  Ascii.N_of_ascii <$> String.list_ascii_of_string s.

(** [str.isspace] for one code point (the Unicode White_Space set plus the
    four ASCII separators 0x1C-0x1F, as CPython has it). *)
Definition isspace (c : N) : bool :=
  ((9 <=? c) && (c <=? 13)) || ((28 <=? c) && (c <=? 32))
  || (c =? 133) || (c =? 160) || (c =? 5760)
  || ((8192 <=? c) && (c <=? 8202))
  || (c =? 8232) || (c =? 8233) || (c =? 8239) || (c =? 8287)
  || (c =? 12288).

Fixpoint lstrip (s : pystr) : pystr :=
  match s with
  | c :: s' => if isspace c then lstrip s' else s
  | [] => []
  end.

Definition rstrip (s : pystr) : pystr := reverse (lstrip (reverse s)).

Definition strip (s : pystr) : pystr := rstrip (lstrip s).

(** [sep.join(parts)] *)
Fixpoint join (sep : pystr) (parts : list pystr) : pystr :=
  match parts with
  | [] => []
  | [x] => x
  | x :: rest => x ++ sep ++ join sep rest
  end.

(** [s.split(sep)] for a one-character separator. *)
Fixpoint split_on (sep : N) (s : pystr) : list pystr :=
  match s with
  | [] => [[]]
  | c :: s' =>
      if c =? sep then [] :: split_on sep s'
      else
        match split_on sep s' with
        | field :: fields => (c :: field) :: fields
        | [] => [[c]]
        end
  end.

Definition nl : pystr := [10].
Definition tab : pystr := [9].

(** Truthiness of a string: [if s:]. *)
Definition truthy (s : pystr) : bool :=
  match s with [] => false | _ => true end.

(** A string with no white space at either end. *)
Definition tidy (s : pystr) : Prop := lstrip s = s /\ rstrip s = s.

(** ** Exceptions and fallible computations *)

Inductive exn := Exception (msg : pystr).

Definition message (e : exn) : pystr := let 'Exception m := e in m.

Inductive result (A : Type) :=
  | Ok (a : A)
  | Raise (e : exn).
Arguments Ok {A} a.
Arguments Raise {A} e.

#[global] Instance result_bind : MBind result := fun A B k r =>
  match r with
  | Ok a => k a
  | Raise e => Raise e
  end.

(** ** ElementTree *)

#[warnings="-register-all"]
Inductive Element := mkElement {
  tag : pystr;
  attrib : gmap pystr pystr;
  text : option pystr;
  tail : option pystr;
  children : list Element
}.

(** [t = e.text; if t: yield t] *)
Definition fragment (t : option pystr) : list pystr :=
  match t with
  | Some (c :: s) => [c :: s]
  | _ => []
  end.

(** [Element.itertext]: own text, then for each child its inner text
    followed by its tail. *)
Fixpoint itertext (e : Element) : list pystr :=
  match e with
  | mkElement _ _ t _ cs =>
      fragment t ++
      (fix inner (l : list Element) : list pystr :=
         match l with
         | [] => []
         | c :: l' => itertext c ++ fragment (tail c) ++ inner l'
         end) cs
  end.

(** [Element.iter()]: the element itself, then its descendants, in
    document order. *)
Fixpoint iter (e : Element) : list Element :=
  match e with
  | mkElement _ _ _ _ cs =>
      e :: (fix below (l : list Element) : list Element :=
              match l with
              | [] => []
              | c :: l' => iter c ++ below l'
              end) cs
  end.

(** The namespace table [NS]. *)
Definition NS_office : pystr := py "urn:oasis:names:tc:opendocument:xmlns:office:1.0".
Definition NS_text : pystr := py "urn:oasis:names:tc:opendocument:xmlns:text:1.0".
Definition NS_table : pystr := py "urn:oasis:names:tc:opendocument:xmlns:table:1.0".

(** A prefixed name resolved against [NS]: [{uri}local]. *)
Definition qname (uri : pystr) (local : string) : pystr :=
  py "{" ++ uri ++ py "}" ++ py local.

(** [el.findall(path, NS)] for a one-step path: the direct children with
    that tag, in order; [el.find] is the first of them. *)
Definition findall (qn : pystr) (el : Element) : list Element :=
  filter (fun c => tag c = qn) (children el).

Definition find (qn : pystr) (el : Element) : option Element :=
  head (findall qn el).

(** ** Input files *)

(** The payload of [content.xml], by what [ET.fromstring] makes of it. *)
Inductive xml_text :=
  | Malformed (e : exn)
  | WellFormed (root : Element).

(** A file of the input directory, by what [zipfile] makes of it. *)
Inductive container :=
  | Unreadable (e : exn)
  | Archive (content_xml : xml_text).

Record Path := mkPath {
  name : pystr;
  file : container
}.

Definition _read_content_xml (doc_path : Path) : result xml_text :=
  match file doc_path with
  | Unreadable e => Raise e
  | Archive x => Ok x
  end.

Definition _parse_xml (xml : xml_text) : result Element :=
  match xml with
  | Malformed e => Raise e
  | WellFormed root => Ok root
  end.

(** ** odt_to_text *)

(** The loop over [text_body.iter()] that fills [lines]. *)
Definition collect_line (lines : list pystr) (el : Element) : list pystr :=
  if bool_decide (tag el = qname NS_text "p") || bool_decide (tag el = qname NS_text "h")
  then
    let s := strip (concat (itertext el)) in
    if truthy s then lines ++ [s] else lines
  else lines.

Definition extract_lines (text_body : Element) : list pystr :=
  fold_left collect_line (iter text_body) [].

(** The loop that fills [cleaned]; the state is [(cleaned, prev)]. *)
Definition dedupe_step (st : list pystr * option pystr) (line : pystr)
  : list pystr * option pystr :=
  let '(cleaned, prev) := st in
  if bool_decide (Some line = prev) then st
  else (cleaned ++ [line], Some line).

Definition dedupe (lines : list pystr) : list pystr :=
  fst (fold_left dedupe_step lines ([], None)).

Definition odt_to_text (doc_path : Path) : result pystr :=
  xml ← _read_content_xml doc_path;
  root ← _parse_xml xml;
  match find (qname NS_office "body") root with
  | None => Ok []
  | Some body =>
      match find (qname NS_office "text") body with
      | None => Ok []
      | Some text_body =>
          let lines := extract_lines text_body in
          let cleaned := dedupe lines in
          Ok (strip (join (nl ++ nl) cleaned) ++ nl)
      end
  end.

(** ** pathlib: name, suffix, stem *)

(** [name.rfind('.')] *)
Fixpoint rfind_dot (s : pystr) : option nat :=
  match s with
  | [] => None
  | c :: s' =>
      match rfind_dot s' with
      | Some i => Some (S i)
      | None => if c =? 46 then Some 0%nat else None
      end
  end.

(** The index [i] with [0 < i < len(name) - 1] at which pathlib splits a
    name into stem and suffix (pathlib up to Python 3.12). *)
Definition split_index (nm : pystr) : option nat :=
  match rfind_dot nm with
  | Some i => if (0 <? i)%nat && (i <? length nm - 1)%nat then Some i else None
  | None => None
  end.

Definition suffix (p : Path) : pystr :=
  match split_index (name p) with
  | Some i => drop i (name p)
  | None => []
  end.

Definition stem (p : Path) : pystr :=
  match split_index (name p) with
  | Some i => take i (name p)
  | None => name p
  end.

(** ** Comparison of strings, [sorted] *)

(** [a <= b] on strings: lexicographic on code points. *)
Fixpoint str_le (a b : pystr) : bool :=
  match a, b with
  | [], _ => true
  | _ :: _, [] => false
  | x :: a', y :: b' =>
      if x <? y then true else if y <? x then false else str_le a' b'
  end.

Section Sorted.
Context {A : Type} (key : A -> pystr).

Fixpoint insert_sorted (x : A) (l : list A) : list A :=
  match l with
  | [] => [x]
  | y :: l' =>
      if str_le (key x) (key y) then x :: l else y :: insert_sorted x l'
  end.

(** [sorted(l, key=key)]: the stable sort of [l] by [key]. *)
Fixpoint sorted (l : list A) : list A :=
  match l with
  | [] => []
  | x :: l' => insert_sorted x (sorted l')
  end.
End Sorted.

(** ** The output directory and the standard streams *)

(** What the operating system does with one [write_text]. *)
Inductive write_fault :=
  | NoFault
  | OpenFails (e : exn)
  | WriteFails (written : nat) (e : exn).

Record world := mkWorld {
  out_files : gmap pystr pystr;
  pending : list write_fault;
  stdout : list pystr;
  stderr : list pystr
}.

(** [out_path.exists()] *)
Definition exists_ (out_path : pystr) (w : world) : bool :=
  bool_decide (is_Some (out_files w !! out_path)).

(** [out_path.write_text(text, encoding="utf-8")]: opens the file for
    writing, which creates or truncates it, then writes; either step can
    raise. *)
Definition write_text (out_path text : pystr) (w : world) : world * result unit :=
  let stored c := mkWorld (<[out_path := c]> (out_files w)) (tl (pending w)) (stdout w) (stderr w) in
  match pending w with
  | [] | NoFault :: _ => (stored text, Ok ())
  | OpenFails e :: rest => (mkWorld (out_files w) rest (stdout w) (stderr w), Raise e)
  | WriteFails n e :: _ => (stored (take n text), Raise e)
  end.

(** The next write meets no fault. *)
Definition write_succeeds (w : world) : bool :=
  match pending w with
  | [] | NoFault :: _ => true
  | _ => false
  end.

Definition print (line : pystr) (w : world) : world :=
  mkWorld (out_files w) (pending w) (stdout w ++ [line]) (stderr w).

Definition print_err (line : pystr) (w : world) : world :=
  mkWorld (out_files w) (pending w) (stdout w) (stderr w ++ [line]).

(** [str(n)] for a counter. *)
Definition str_of_nat (n : nat) : pystr :=
  py (NilEmpty.string_of_uint (Nat.to_uint n)).

(** ** ods_to_text, convert_one, main *)

(** What the embedding takes from the Python runtime: [int(s)] on a string
    ([Some n] when the string is an integer literal, [None] when [int]
    raises), and [s.lower()] for the strings that have code points outside
    ASCII. *)
Class Runtime := {
  int_of_str : pystr -> option Z;
  unicode_lower : pystr -> pystr
}.

Section Driver.

Context {rt : Runtime}.

Definition ascii_lower (c : N) : N :=
  if (65 <=? c) && (c <=? 90) then c + 32 else c.

Definition lower (s : pystr) : pystr :=
  if forallb (fun c => c <? 128) s then ascii_lower <$> s else unicode_lower s.

Definition _int_attr (el : Element) (qn : pystr) (default : Z) : Z :=
  match attrib el !! qn with
  | Some s =>
      match int_of_str s with
      | Some n => n
      | None => default
      end
  | None => default
  end.

(** The number of iterations of [for _ in range(max(1, n))]. *)
Definition repeats (n : Z) : nat := Z.to_nat (Z.max 1 n).

Definition cell_text (cell : Element) : pystr :=
  strip (join (py " ")
           ((fun p => strip (concat (itertext p))) <$> findall (qname NS_text "p") cell)).

(** Body of [for cell in row.findall("table:table-cell", NS)]. *)
Definition add_cell (cells : list pystr) (cell : Element) : list pystr :=
  let col_repeat := _int_attr cell (qname NS_table "number-columns-repeated") 1 in
  Nat.iter (repeats col_repeat) (fun cells => cells ++ [cell_text cell]) cells.

Definition row_cells (row : Element) : list pystr :=
  fold_left add_cell (findall (qname NS_table "table-cell") row) [].

Definition rendered (row : Element) : pystr :=
  rstrip (join tab (row_cells row)).

(** Body of [for row in table.findall("table:table-row", NS)]. *)
Definition add_row (out_lines : list pystr) (row : Element) : list pystr :=
  let row_repeat := _int_attr row (qname NS_table "number-rows-repeated") 1 in
  Nat.iter (repeats row_repeat) (fun out_lines => out_lines ++ [rendered row]) out_lines.

(** Body of [for table in spreadsheet.findall("table:table", NS)]. *)
Definition add_table (out_lines : list pystr) (table : Element) : list pystr :=
  let sheet_name := default (py "Sheet") (attrib table !! qname NS_table "name") in
  let out_lines := out_lines ++ [py "## " ++ sheet_name] in
  let out_lines := fold_left add_row (findall (qname NS_table "table-row") table) out_lines in
  out_lines ++ [[]].

Definition sheet_lines (spreadsheet : Element) : list pystr :=
  fold_left add_table (findall (qname NS_table "table") spreadsheet) [].

Definition ods_to_text (doc_path : Path) : result pystr :=
  xml ← _read_content_xml doc_path;
  root ← _parse_xml xml;
  match find (qname NS_office "body") root with
  | None => Ok []
  | Some body =>
      match find (qname NS_office "spreadsheet") body with
      | None => Ok []
      | Some spreadsheet =>
          let out_lines := sheet_lines spreadsheet in
          Ok (rstrip (join nl out_lines) ++ nl)
      end
  end.

Definition convert_one (doc_path : Path) : result pystr :=
  let ext := lower (suffix doc_path) in
  if bool_decide (ext = py ".odt") then odt_to_text doc_path
  else if bool_decide (ext = py ".ods") then ods_to_text doc_path
  else Raise (Exception (py "Unsupported file type: " ++ name doc_path)).

(** The counters of [main]. *)
Record tally := mkTally {
  converted : nat;
  skipped : nat;
  failed : nat
}.

(** [out_dir / f"{doc.stem}.txt"], as a file name of the output directory. *)
Definition out_path (doc : Path) : pystr := stem doc ++ py ".txt".

(** Body of [for doc in files]. *)
Definition process (overwrite : bool) (st : tally * world) (doc : Path) : tally * world :=
  let '(t, w) := st in
  if exists_ (out_path doc) w && negb overwrite then
    (mkTally (converted t) (S (skipped t)) (failed t), w)
  else
    let report e w' :=
      (mkTally (converted t) (skipped t) (S (failed t)),
       print_err (py "ERROR: " ++ name doc ++ py ": " ++ message e) w') in
    match convert_one doc with
    | Ok text =>
        match write_text (out_path doc) text w with
        | (w', Ok _) => (mkTally (S (converted t)) (skipped t) (failed t), w')
        | (w', Raise e) => report e w'
        end
    | Raise e => report e w
    end.

Definition run (overwrite : bool) (files : list Path) (st : tally * world) : tally * world :=
  fold_left (process overwrite) files st.

(** [in_dir.glob("*" + ext)]: the entries of the directory whose name ends
    with [ext], in the order of the listing. *)
Definition glob (ext : string) (listing : list Path) : list Path :=
  filter (fun p => py ext `suffix_of` name p) listing.

Definition enumerate (listing : list Path) : list Path :=
  sorted (fun p => lower (name p)) (glob ".odt" listing ++ glob ".ods" listing).

(** The parsed command line, directories resolved. *)
Record Args := mkArgs {
  in_dir : pystr;
  out_dir : pystr;
  overwrite : bool
}.

Definition summary (t : tally) (out_dir : pystr) : pystr :=
  py "Done. converted=" ++ str_of_nat (converted t)
  ++ py " skipped=" ++ str_of_nat (skipped t)
  ++ py " failed=" ++ str_of_nat (failed t)
  ++ py " -> " ++ out_dir.

(** [main], from the parsed arguments on; [listing] is the content of the
    input directory, [w] the output directory (created) and the streams.
    Returns the exit status and the world it leaves. *)
Definition main (args : Args) (listing : list Path) (w : world) : Z * world :=
  let files := enumerate listing in
  match files with
  | [] => (0%Z, print (py "No .odt/.ods files found in: " ++ in_dir args) w)
  | _ =>
      let '(t, w') := run (overwrite args) files (mkTally 0 0 0, w) in
      (if (failed t =? 0)%nat then 0%Z else 2%Z, print (summary t (out_dir args)) w')
  end.

(** *** Notions used to state the properties of the extractors *)

(** Effective repeat counts of a row and of a cell. *)
Definition row_repeat (row : Element) : nat :=
  repeats (_int_attr row (qname NS_table "number-rows-repeated") 1).

Definition col_repeat (cell : Element) : nat :=
  repeats (_int_attr cell (qname NS_table "number-columns-repeated") 1).

(** What one cell adds to [cells], what one row adds to [out_lines]. *)
Definition cell_values (cell : Element) : list pystr :=
  replicate (col_repeat cell) (cell_text cell).

Definition row_lines (row : Element) : list pystr :=
  replicate (row_repeat row) (rendered row).

Definition heading (table : Element) : pystr :=
  py "## " ++ default (py "Sheet") (attrib table !! qname NS_table "name").

Definition table_lines (table : Element) : list pystr :=
  heading table
  :: concat (row_lines <$> findall (qname NS_table "table-row") table) ++ [[]].

(** The reading of the repeat property on the final texts: the lines of
    the output hold the block of a row, the tab-separated fields of a
    rendered row hold the block of a cell. *)
Definition rows_repeated_in_output (doc : Path) : Prop :=
  forall root body spreadsheet out table row,
    file doc = Archive (WellFormed root) ->
    find (qname NS_office "body") root = Some body ->
    find (qname NS_office "spreadsheet") body = Some spreadsheet ->
    ods_to_text doc = Ok out ->
    table ∈ findall (qname NS_table "table") spreadsheet ->
    row ∈ findall (qname NS_table "table-row") table ->
    exists before after,
      split_on 10 out = before ++ replicate (row_repeat row) (rendered row) ++ after.

Definition cells_repeated_in_row (row : Element) : Prop :=
  forall cell,
    cell ∈ findall (qname NS_table "table-cell") row ->
    exists before after,
      split_on 9 (rendered row)
      = before ++ replicate (col_repeat cell) (cell_text cell) ++ after.

(** *** Notions used to state the properties of the driver *)

(** The test that guards the [continue]. *)
Definition skips (overwrite : bool) (doc : Path) (w : world) : bool :=
  exists_ (out_path doc) w && negb overwrite.

(** The two statements of the [try] block: convert, then write. *)
Definition attempt (doc : Path) (w : world) : world * result unit :=
  match convert_one doc with
  | Ok text => write_text (out_path doc) text w
  | Raise e => (w, Raise e)
  end.

(** What happens to one file, and to each file of a run. *)
Inductive outcome :=
  | Converted
  | Skipped
  | Failed (e : exn).

Definition outcome_of (overwrite : bool) (w : world) (doc : Path) : outcome :=
  if skips overwrite doc w then Skipped
  else
    match attempt doc w with
    | (_, Ok _) => Converted
    | (_, Raise e) => Failed e
    end.

Fixpoint outcomes (overwrite : bool) (files : list Path) (st : tally * world)
  : list outcome :=
  match files with
  | [] => []
  | doc :: rest =>
      outcome_of overwrite (snd st) doc :: outcomes overwrite rest (process overwrite st doc)
  end.

Definition is_failed (o : outcome) : bool :=
  match o with Failed _ => true | _ => false end.

Definition diagnostic (doc : Path) (e : exn) : pystr :=
  py "ERROR: " ++ name doc ++ py ": " ++ message e.

(** The lines a run writes to the error stream, from its outcomes. *)
Definition diagnostics (files : list Path) (os : list outcome) : list pystr :=
  omap (fun '(doc, o) => match o with Failed e => Some (diagnostic doc e) | _ => None end)
    (zip files os).

(** The reading of all-or-nothing writes: after a failed conversion the
    output path holds what it held before, or the whole converted text. *)
Definition write_all_or_nothing (overwrite : bool) (doc : Path) (st : tally * world) : Prop :=
  forall e,
    outcome_of overwrite (snd st) doc = Failed e ->
    out_files (snd (process overwrite st doc)) !! out_path doc
    = out_files (snd st) !! out_path doc
    \/ exists text,
         convert_one doc = Ok text
         /\ out_files (snd (process overwrite st doc)) !! out_path doc = Some text.

End Driver.


(** * Notions used to state the properties *)

(** The line a node of the text section contributes to [lines], if any. *)
Definition line_of (el : Element) : option pystr :=
  if bool_decide (tag el = qname NS_text "p") || bool_decide (tag el = qname NS_text "h")
  then
    let s := strip (concat (itertext el)) in
    if truthy s then Some s else None
  else None.

(** No two neighbours of the list are equal. *)
Definition no_adjacent_dup (l : list pystr) : Prop :=
  forall l1 x l2, l ≠ l1 ++ x :: x :: l2.

(** ** Sample documents *)

Definition node (qn : pystr) (cs : list Element) : Element :=
  mkElement qn ∅ None None cs.

Definition para (s : string) : Element :=
  mkElement (qname NS_text "p") ∅ (Some (py s)) None [].

Definition text_root (ps : list Element) : Element :=
  node (qname NS_office "document-content")
    [node (qname NS_office "body") [node (qname NS_office "text") ps]].

Definition hello_paragraphs : list Element :=
  [para "Hello"; para "Hello"; para "World"].

Definition nested_paragraphs : list Element :=
  [mkElement (qname NS_text "h") ∅ (Some (py "Title")) None [];
   node (qname NS_text "section")
     [para "Intro";
      para "   ";
      mkElement (qname NS_text "p") ∅ None None
        [mkElement (qname NS_text "span") ∅ (Some (py "bold")) (Some (py " move ")) []]];
   para "Intro"].

Definition nested_odt : Path :=
  mkPath (py "nested.odt") (Archive (WellFormed (text_root nested_paragraphs))).

Definition hello_odt : Path :=
  mkPath (py "hello.odt") (Archive (WellFormed (text_root hello_paragraphs))).

(** An instance of the runtime's [int] for the sample documents: it reads
    the plain ASCII decimal literals, with an optional sign and surrounding
    white space, and rejects every other string. *)
Definition digit (c : N) : option Z :=
  if (48 <=? c) && (c <=? 57) then Some (Z.of_N (c - 48)) else None.

Fixpoint digits (acc : Z) (s : pystr) : option Z :=
  match s with
  | [] => Some acc
  | c :: s' => d ← digit c; digits (10 * acc + d) s'
  end.

Definition ascii_int (s : pystr) : option Z :=
  match strip s with
  | [] => None
  | 45 :: ((_ :: _) as ds) => Z.opp <$> digits 0 ds
  | 43 :: ((_ :: _) as ds) => digits 0 ds
  | ds => digits 0 ds
  end.

(** An instance of the runtime's [lower] for names outside ASCII in the
    sample directories: it leaves them as they are. *)
Definition keep_case (s : pystr) : pystr := s.

Definition attrs (l : list (pystr * string)) : gmap pystr pystr :=
  list_to_map (prod_map id py <$> l).

Definition cell (at_ : list (pystr * string)) (ps : list Element) : Element :=
  mkElement (qname NS_table "table-cell") (attrs at_) None None ps.

Definition row (at_ : list (pystr * string)) (cells : list Element) : Element :=
  mkElement (qname NS_table "table-row") (attrs at_) None None cells.

Definition sheet (at_ : list (pystr * string)) (rows : list Element) : Element :=
  mkElement (qname NS_table "table") (attrs at_) None None rows.

Definition sheet_root (tables : list Element) : Element :=
  node (qname NS_office "document-content")
    [node (qname NS_office "body") [node (qname NS_office "spreadsheet") tables]].

(** One sheet "Data", one row repeated twice with the cells A and B. *)
Definition data_row : Element :=
  row [(qname NS_table "number-rows-repeated", "2")]
    [cell [] [para "A"]; cell [] [para "B"]].

Definition data_ods : Path :=
  mkPath (py "data.ods")
    (Archive (WellFormed (sheet_root [sheet [(qname NS_table "name", "Data")] [data_row]]))).

(** A sheet that ends the way office suites write them: a row whose last
    cell is empty and repeated, then an empty row repeated. *)
Definition padded_row : Element :=
  row [] [cell [] [para "A"]; cell [(qname NS_table "number-columns-repeated", "3")] []].

Definition blank_row : Element :=
  row [(qname NS_table "number-rows-repeated", "3")] [cell [] []].

Definition padded_sheet : Element :=
  sheet [(qname NS_table "name", "Data")] [padded_row; blank_row].

Definition padded_ods : Path :=
  mkPath (py "padded.ods") (Archive (WellFormed (sheet_root [padded_sheet]))).

(** Markup without a body, and with a body that has no section. *)
Definition bodyless_root : Element :=
  node (qname NS_office "document-content") [].

Definition sectionless_root : Element :=
  node (qname NS_office "document-content") [node (qname NS_office "body") []].

Definition bodyless_odt : Path :=
  mkPath (py "empty.odt") (Archive (WellFormed bodyless_root)).

#[global] Instance sample_runtime : Runtime := {|
  int_of_str := ascii_int;
  unicode_lower := keep_case
|}.

(** ** Sample directories *)

Definition empty_world : world := mkWorld ∅ [] [] [].

Definition start : tally := mkTally 0 0 0.

Definition not_a_zip : exn := Exception (py "File is not a zip file").

Definition disk_full : exn := Exception (py "[Errno 28] No space left on device").

Definition broken_ods : Path := mkPath (py "broken.ods") (Unreadable not_a_zip).

(** Two files with the same stem. *)
Definition report_odt : Path :=
  mkPath (py "report.odt") (Archive (WellFormed (text_root hello_paragraphs))).

Definition report_ods : Path :=
  mkPath (py "report.ods")
    (Archive (WellFormed (sheet_root [sheet [(qname NS_table "name", "Data")] [data_row]]))).

(** An output directory that holds an earlier [hello.txt], on a disk that
    runs full after three characters of the next write. *)
Definition full_disk_world : world :=
  mkWorld {[ py "hello.txt" := py "old text" ]} [WriteFails 3 disk_full] [] [].

Definition sample_args : Args := mkArgs (py "/in") (py "/out") false.

(** * Further notions *)

(** A directory entry that [main] takes as a candidate. *)
Definition candidate (p : Path) : Prop :=
  py ".odt" `suffix_of` name p \/ py ".ods" `suffix_of` name p.

#[global] Instance candidate_dec (p : Path) : Decision (candidate p).
Proof. unfold candidate. apply _. Defined.

(** The order [sorted] puts the keys in. *)
Definition key_le {A} (key : A -> pystr) (a b : A) : Prop :=
  str_le (key a) (key b) = true.

Section FurtherNotions.

Context {rt : Runtime}.

(** The output directory after the files were converted and written one
    after the other, each conversion that succeeds replacing what its output
    path held. *)
Definition written (files : list Path) (m : gmap pystr pystr) : gmap pystr pystr :=
  fold_left
    (fun m doc =>
       match convert_one doc with
       | Ok text => <[out_path doc := text]> m
       | Raise _ => m
       end)
    files m.

(** The outcome of a file that is not skipped and meets no write fault. *)
Definition plain_outcome (doc : Path) : outcome :=
  match convert_one doc with
  | Ok _ => Converted
  | Raise e => Failed e
  end.

End FurtherNotions.

(** More entries for the sample directories. *)
Definition dot_odt : Path := mkPath (py ".odt") (Archive (WellFormed (text_root hello_paragraphs))).

Definition notes_txt : Path := mkPath (py "notes.txt") (Unreadable not_a_zip).

Definition sample_listing : list Path :=
  [notes_txt; report_odt; hello_odt; broken_ods; data_ods].

Definition overwrite_args : Args := mkArgs (py "/in") (py "/out") true.

(** * Positions and document order *)

(** The node reached from [e] by following child indices. *)
Fixpoint subtree_at (e : Element) (p : list nat) : option Element :=
  match p with
  | [] => Some e
  | i :: p' =>
      match children e !! i with
      | Some c => subtree_at c p'
      | None => None
      end
  end.

(** Document order on positions: a node comes before its descendants, and
    the subtree of a child before the subtree of any later child. *)
Fixpoint doc_before (p q : list nat) : Prop :=
  match p, q with
  | [], [] => False
  | [], _ :: _ => True
  | _ :: _, [] => False
  | i :: p', j :: q' => (i < j)%nat \/ (i = j /\ doc_before p' q')
  end.

(** The positions of the nodes of a list of siblings, the first of them
    being child number [i], and of a tree. *)
Fixpoint positions (e : Element) : list (list nat) :=
  match e with
  | mkElement _ _ _ _ cs =>
      [] :: (fix below (i : nat) (l : list Element) : list (list nat) :=
               match l with
               | [] => []
               | c :: l' => (cons i <$> positions c) ++ below (S i) l'
               end) 0%nat cs
  end.

Fixpoint positions_from (i : nat) (l : list Element) : list (list nat) :=
  match l with
  | [] => []
  | c :: l' => (cons i <$> positions c) ++ positions_from (S i) l'
  end.

(** A node that gives a line, and the line it gives. *)
Definition node_text (n : Element) : pystr := strip (concat (itertext n)).

Definition is_line_node (n : Element) : Prop :=
  (tag n = qname NS_text "p" \/ tag n = qname NS_text "h") /\ node_text n ≠ [].

#[global] Instance is_line_node_dec (n : Element) : Decision (is_line_node n).
Proof. unfold is_line_node. apply _. Defined.

(** Where line number [k] of [lines] starts in the text that joins them
    with a separator of length [gap]. *)
Definition line_start (gap : nat) (lines : list pystr) (k : nat) : nat :=
  sum_list ((fun y => length y + gap)%nat <$> take k lines).

Section CollisionNotions.

Context {rt : Runtime}.

(** The reading of the collision property on two files with the same output
    path, processed one after the other: the second is skipped, or its text
    is what the output path holds afterwards. *)
Definition second_overwrites_or_is_skipped (overwrite : bool) (first second : Path)
    (st : tally * world) : Prop :=
  outcome_of overwrite (snd (process overwrite st first)) second = Skipped
  \/ exists text,
       convert_one second = Ok text
       /\ out_files (snd (process overwrite (process overwrite st first) second))
            !! out_path second = Some text.

End CollisionNotions.

(** A file with the stem of [report_ods] that is no archive. *)
Definition unreadable_report_odt : Path := mkPath (py "report.odt") (Unreadable not_a_zip).
(** * Properties *)

(** ** Trimming and joining *)

Lemma lstrip_length (s : pystr) : (length (lstrip s) <= length s)%nat.
Proof.
  induction s as [|c s IH]; simpl; [lia|].
  destruct (isspace c); simpl; lia.
Qed.

Lemma lstrip_head (c : N) (s : pystr) : lstrip (c :: s) = c :: s -> isspace c = false.
Proof.
  simpl. destruct (isspace c); [|done].
  intros H. pose proof (lstrip_length s) as Hl. rewrite H in Hl. simpl in Hl. lia.
Qed.

Lemma lstrip_idemp (s : pystr) : lstrip (lstrip s) = lstrip s.
Proof.
  induction s as [|c s IH]; simpl; [done|].
  destruct (isspace c) eqn:E; [done|]. simpl. by rewrite E.
Qed.

Lemma lstrip_fixed_app (s t : pystr) :
  s ≠ [] -> lstrip s = s -> lstrip (s ++ t) = s ++ t.
Proof.
  destruct s as [|c s]; [done|]. intros _ H.
  apply lstrip_head in H. simpl. by rewrite H.
Qed.

Lemma lstrip_snoc (s : pystr) (c : N) :
  isspace c = false -> lstrip (s ++ [c]) = lstrip s ++ [c].
Proof.
  intros Hc. induction s as [|d s IH]; simpl; [by rewrite Hc|].
  destruct (isspace d); done.
Qed.

Lemma rstrip_nil : rstrip [] = [].
Proof. done. Qed.

Lemma rstrip_cons (c : N) (s : pystr) :
  isspace c = false -> rstrip (c :: s) = c :: rstrip s.
Proof.
  intros Hc. unfold rstrip. rewrite reverse_cons, lstrip_snoc by done.
  by rewrite reverse_app.
Qed.

Lemma rstrip_idemp (s : pystr) : rstrip (rstrip s) = rstrip s.
Proof. unfold rstrip. by rewrite reverse_involutive, lstrip_idemp. Qed.

Lemma rstrip_fixed_app (s t : pystr) :
  t ≠ [] -> rstrip t = t -> rstrip (s ++ t) = s ++ t.
Proof.
  intros Hne H. unfold rstrip in *.
  assert (lstrip (reverse t) = reverse t) as Hr.
  { rewrite <- H at 2. by rewrite reverse_involutive. }
  rewrite reverse_app, lstrip_fixed_app; [| |done].
  - by rewrite reverse_app, !reverse_involutive.
  - intros E. apply Hne. by rewrite <- (reverse_involutive t), E.
Qed.

Lemma tidy_nil : tidy [].
Proof. done. Qed.

Lemma strip_tidy (s : pystr) : tidy (strip s).
Proof.
  unfold strip. split; [|apply rstrip_idemp].
  pose proof (lstrip_idemp s) as H.
  destruct (lstrip s) as [|c u]; [done|].
  apply lstrip_head in H as Hc. rewrite rstrip_cons by done.
  simpl. by rewrite Hc.
Qed.

Lemma tidy_strip (s : pystr) : tidy s -> strip s = s.
Proof. intros [H1 H2]. unfold strip. by rewrite H1. Qed.

Lemma join_cons2 (sep x y : pystr) (l : list pystr) :
  join sep (x :: y :: l) = x ++ sep ++ join sep (y :: l).
Proof. done. Qed.

Lemma join_nonempty (sep x : pystr) (l : list pystr) :
  x ≠ [] -> join sep (x :: l) ≠ [].
Proof. destruct l, x; done. Qed.

Lemma join_snoc (sep x : pystr) (l : list pystr) :
  l ≠ [] -> join sep (l ++ [x]) = join sep l ++ sep ++ x.
Proof.
  induction l as [|y l IH]; [done|]. intros _.
  destruct l as [|z l]; [done|].
  change ((y :: z :: l) ++ [x]) with (y :: (z :: l) ++ [x]).
  simpl app at 1. rewrite !join_cons2.
  change (z :: l ++ [x]) with ((z :: l) ++ [x]).
  rewrite IH by done. by rewrite <- !app_assoc.
Qed.

Lemma join_tidy (sep : pystr) (l : list pystr) :
  Forall (fun x => tidy x /\ x ≠ []) l -> tidy (join sep l).
Proof.
  induction 1 as [|x l [[Hx1 Hx2] Hne] Hl IH]; [done|].
  destruct l as [|y l]; [done|].
  rewrite join_cons2. destruct IH as [_ IH2].
  apply Forall_cons in Hl as [[_ Hy] _].
  split.
  - by apply lstrip_fixed_app.
  - rewrite app_assoc. apply rstrip_fixed_app; [|done].
    by apply join_nonempty.
Qed.

(** ** The text extractor *)

Lemma collect_line_spec (lines : list pystr) (el : Element) :
  collect_line lines el = lines ++ option_list (line_of el).
Proof.
  unfold collect_line, line_of.
  destruct (_ || _); [|by rewrite app_nil_r].
  simpl. destruct (truthy _); [done|by rewrite app_nil_r].
Qed.

Lemma collect_lines_from (els : list Element) (acc : list pystr) :
  fold_left collect_line els acc = acc ++ omap line_of els.
Proof.
  revert acc. induction els as [|el els IH]; intros acc; simpl.
  - by rewrite app_nil_r.
  - rewrite IH, collect_line_spec. rewrite <- app_assoc. f_equal.
    by destruct (line_of el).
Qed.

Lemma extract_lines_omap (text_body : Element) :
  extract_lines text_body = omap line_of (iter text_body).
Proof. unfold extract_lines. by rewrite collect_lines_from. Qed.

Lemma line_of_tidy (el : Element) (s : pystr) :
  line_of el = Some s -> tidy s /\ s ≠ [].
Proof.
  unfold line_of. destruct (_ || _); [|done]. simpl.
  destruct (truthy _) eqn:E; [|done]. intros [= <-]. split; [apply strip_tidy|].
  intros E'. by rewrite E' in E.
Qed.

Lemma extract_lines_tidy (text_body : Element) :
  Forall (fun s => tidy s /\ s ≠ []) (extract_lines text_body).
Proof.
  rewrite extract_lines_omap. apply Forall_forall. intros s Hs.
  apply list_elem_of_omap in Hs as (el & _ & Hel). by eapply line_of_tidy.
Qed.

(** *** The de-duplication loop *)

Lemma dedupe_state_last (l : list pystr) :
  snd (fold_left dedupe_step l ([], None)) = last l.
Proof.
  induction l as [|x l IH] using rev_ind; [done|].
  rewrite fold_left_app, last_snoc. simpl.
  destruct (fold_left dedupe_step l ([], None)) as [cleaned prev]. simpl in *.
  case_bool_decide; simpl; congruence.
Qed.

Lemma dedupe_snoc (l : list pystr) (x : pystr) :
  dedupe (l ++ [x]) = if bool_decide (last l = Some x) then dedupe l else dedupe l ++ [x].
Proof.
  unfold dedupe. rewrite fold_left_app. simpl.
  pose proof (dedupe_state_last l) as H.
  destruct (fold_left dedupe_step l ([], None)) as [cleaned prev]. simpl in *. subst prev.
  repeat case_bool_decide; simpl; congruence.
Qed.

Lemma dedupe_snoc_same (l : list pystr) (x : pystr) :
  last l = Some x -> dedupe (l ++ [x]) = dedupe l.
Proof. intros H. rewrite dedupe_snoc. by rewrite bool_decide_eq_true_2. Qed.

Lemma dedupe_snoc_other (l : list pystr) (x : pystr) :
  last l ≠ Some x -> dedupe (l ++ [x]) = dedupe l ++ [x].
Proof. intros H. rewrite dedupe_snoc. by rewrite bool_decide_eq_false_2. Qed.

Lemma last_dedupe (l : list pystr) : last (dedupe l) = last l.
Proof.
  induction l as [|x l IH] using rev_ind; [done|].
  rewrite dedupe_snoc, !last_snoc. case_bool_decide; [congruence|].
  by rewrite last_snoc.
Qed.

Lemma no_adjacent_dup_snoc (l : list pystr) (x : pystr) :
  no_adjacent_dup l -> last l ≠ Some x -> no_adjacent_dup (l ++ [x]).
Proof.
  intros Hl Hx l1 y l2 E.
  destruct l2 as [|z l2 _] using rev_ind.
  - change (l1 ++ [y; y]) with (l1 ++ [y] ++ [y]) in E. rewrite app_assoc in E.
    apply app_inj_tail in E as [-> ->]. by rewrite last_snoc in Hx.
  - change (l1 ++ y :: y :: l2 ++ [z]) with (l1 ++ (y :: y :: l2) ++ [z]) in E.
    rewrite app_assoc in E. apply app_inj_tail in E as [-> _]. by eapply Hl.
Qed.

Lemma no_adjacent_dup_snoc_inv (l : list pystr) (x : pystr) :
  no_adjacent_dup (l ++ [x]) -> no_adjacent_dup l /\ last l ≠ Some x.
Proof.
  intros H. split.
  - intros l1 y l2 ->. apply (H l1 y (l2 ++ [x])). by rewrite <- app_assoc.
  - intros E. apply last_Some in E as [l' ->]. apply (H l' x []).
    by rewrite <- app_assoc.
Qed.

Lemma dedupe_no_adjacent_dup (l : list pystr) : no_adjacent_dup (dedupe l).
Proof.
  induction l as [|x l IH] using rev_ind.
  - intros [|??] ?? ?; done.
  - rewrite dedupe_snoc. case_bool_decide; [done|].
    apply no_adjacent_dup_snoc; [done|]. by rewrite last_dedupe.
Qed.

Lemma dedupe_fixed (l : list pystr) : no_adjacent_dup l -> dedupe l = l.
Proof.
  induction l as [|x l IH] using rev_ind; [done|].
  intros [Hl Hx]%no_adjacent_dup_snoc_inv.
  rewrite dedupe_snoc_other by done. by rewrite IH.
Qed.

Lemma dedupe_sublist (l : list pystr) : dedupe l `sublist_of` l.
Proof.
  induction l as [|x l IH] using rev_ind; [done|].
  rewrite dedupe_snoc. case_bool_decide.
  - by apply sublist_inserts_r.
  - by apply sublist_app.
Qed.

Lemma dedupe_elem_of (l : list pystr) (x : pystr) : x ∈ dedupe l <-> x ∈ l.
Proof.
  induction l as [|y l IH] using rev_ind; [done|].
  rewrite dedupe_snoc. case_bool_decide as Hy.
  - rewrite IH, elem_of_app, list_elem_of_singleton.
    apply last_Some in Hy as [l' ->].
    rewrite elem_of_app, list_elem_of_singleton. tauto.
  - rewrite !elem_of_app, IH. done.
Qed.

Lemma cleaned_tidy (text_body : Element) :
  Forall (fun s => tidy s /\ s ≠ []) (dedupe (extract_lines text_body)).
Proof.
  pose proof (extract_lines_tidy text_body) as H.
  rewrite Forall_forall in H. apply Forall_forall. intros s Hs.
  by apply H, dedupe_elem_of.
Qed.

(** With a body and a text section, the final [strip] has nothing to trim:
    the output is the cleaned lines joined by blank lines, and a newline. *)
Lemma odt_to_text_joined (doc : Path) (root body text_body : Element) :
  file doc = Archive (WellFormed root) ->
  find (qname NS_office "body") root = Some body ->
  find (qname NS_office "text") body = Some text_body ->
  odt_to_text doc = Ok (join (nl ++ nl) (dedupe (extract_lines text_body)) ++ nl).
Proof.
  intros Hf Hb Ht. unfold odt_to_text, _read_content_xml. rewrite Hf. simpl.
  rewrite Hb, Ht. rewrite tidy_strip; [done|].
  apply join_tidy, cleaned_tidy.
Qed.

Lemma iter_unfold (e : Element) :
  iter e = e :: concat (iter <$> children e).
Proof.
  destruct e as [tg at_ tx tl cs]. simpl. f_equal.
  induction cs as [|c cs IH]; simpl; [done|]. by rewrite IH.
Qed.

(** C1. For a text document, that is a readable archive whose markup is well
    formed and has a body with a text section, [odt_to_text] returns the
    cleaned lines joined by blank lines and ended by a newline, where
    [cleaned] comes from the extracted lines by dropping exactly the lines
    equal to the line just before them: a line equal to its predecessor is
    dropped, any other line is kept, whether or not it occurred earlier, and
    no two neighbours of [cleaned] are equal. The paragraphs "Hello",
    "Hello", "World" give "Hello\n\nWorld\n". *)
Theorem adjacent_duplicates_collapse (doc : Path) (root body text_body : Element) :
  file doc = Archive (WellFormed root) ->
  find (qname NS_office "body") root = Some body ->
  find (qname NS_office "text") body = Some text_body ->
  odt_to_text doc = Ok (join (nl ++ nl) (dedupe (extract_lines text_body)) ++ nl)
  /\ no_adjacent_dup (dedupe (extract_lines text_body))
  /\ dedupe [] = []
  /\ (forall l x, last l = Some x -> dedupe (l ++ [x]) = dedupe l)
  /\ (forall l x, last l ≠ Some x -> dedupe (l ++ [x]) = dedupe l ++ [x])
  /\ (forall l, no_adjacent_dup l -> dedupe l = l)
  /\ extract_lines (node (qname NS_office "text") hello_paragraphs)
     = [py "Hello"; py "Hello"; py "World"]
  /\ odt_to_text hello_odt = Ok (py "Hello" ++ nl ++ nl ++ py "World" ++ nl).
Proof.
  intros Hf Hb Ht. split; [by eapply odt_to_text_joined|].
  split; [apply dedupe_no_adjacent_dup|].
  split; [done|].
  split; [apply dedupe_snoc_same|].
  split; [apply dedupe_snoc_other|].
  split; [apply dedupe_fixed|].
  split; vm_compute; reflexivity.
Qed.

Lemma adjacent_duplicates_collapse_witness :
  file hello_odt = Archive (WellFormed (text_root hello_paragraphs))
  /\ find (qname NS_office "body") (text_root hello_paragraphs)
     = Some (node (qname NS_office "body") [node (qname NS_office "text") hello_paragraphs])
  /\ find (qname NS_office "text")
       (node (qname NS_office "body") [node (qname NS_office "text") hello_paragraphs])
     = Some (node (qname NS_office "text") hello_paragraphs)
  /\ odt_to_text hello_odt
     = Ok (join (nl ++ nl)
             (dedupe (extract_lines (node (qname NS_office "text") hello_paragraphs))) ++ nl).
Proof.
  split; [reflexivity|]. split; [vm_compute; reflexivity|].
  split; [vm_compute; reflexivity|].
  apply (adjacent_duplicates_collapse hello_odt (text_root hello_paragraphs)
           (node (qname NS_office "body") [node (qname NS_office "text") hello_paragraphs])
           (node (qname NS_office "text") hello_paragraphs));
    vm_compute; reflexivity.
Defined.

(** ** Document order *)

Lemma Element_children_ind (P : Element -> Prop) :
  (forall e, Forall P (children e) -> P e) -> forall e, P e.
Proof.
  intros H. fix IH 1. intros e. apply H. destruct e as [tg a tx tl cs]. simpl.
  induction cs as [|c cs IHcs]; [constructor|]. constructor; [apply IH|exact IHcs].
Qed.

Lemma positions_unfold (e : Element) :
  positions e = [] :: positions_from 0 (children e).
Proof.
  by destruct e.
Qed.

Lemma subtree_at_child (e c : Element) (i : nat) (p : list nat) :
  children e !! i = Some c -> subtree_at e (i :: p) = subtree_at c p.
Proof. intros H. simpl. by rewrite H. Qed.

Lemma positions_from_nodes (e : Element) (pre l : list Element) :
  children e = pre ++ l ->
  Forall (fun c => Forall2 (fun p n => subtree_at c p = Some n) (positions c) (iter c)) l ->
  Forall2 (fun p n => subtree_at e p = Some n)
    (positions_from (length pre) l) (concat (iter <$> l)).
Proof.
  revert pre. induction l as [|c l IH]; intros pre Hcs Hl; simpl; [constructor|].
  apply Forall_cons in Hl as [Hc Hl]. apply Forall2_app.
  - apply Forall2_fmap_l. eapply Forall2_impl; [exact Hc|].
    intros p n Hp. unfold compose. rewrite (subtree_at_child e c); [done|].
    rewrite Hcs. by apply list_lookup_middle.
  - replace (S (length pre)) with (length (pre ++ [c])) by (rewrite length_app; simpl; lia).
    apply IH; [|done]. by rewrite <- app_assoc.
Qed.

(** [iter] lists the nodes found at [positions]. *)
Lemma positions_nodes (e : Element) :
  Forall2 (fun p n => subtree_at e p = Some n) (positions e) (iter e).
Proof.
  induction e as [e IH] using Element_children_ind.
  rewrite positions_unfold, iter_unfold. constructor; [done|].
  by apply (positions_from_nodes e []).
Qed.

Lemma positions_from_head (i : nat) (l : list Element) (p : list nat) :
  p ∈ positions_from i l -> exists j q, p = j :: q /\ (i <= j)%nat.
Proof.
  revert i. induction l as [|c l IH]; intros i; simpl; [by intros ?%elem_of_nil|].
  intros [Hp|Hp]%elem_of_app.
  - apply list_elem_of_fmap in Hp as (q & -> & _). exists i, q. split; [done|lia].
  - apply IH in Hp as (j & q & -> & Hj). exists j, q. split; [done|lia].
Qed.

Lemma doc_before_cons (i : nat) (p q : list nat) :
  doc_before (i :: p) (i :: q) <-> doc_before p q.
Proof. simpl. split; [intros [?|[_ ?]]; [lia|done]|by right]. Qed.

Lemma positions_from_sorted (i : nat) (l : list Element) :
  Forall (fun c => StronglySorted doc_before (positions c)) l ->
  StronglySorted doc_before (positions_from i l).
Proof.
  revert i. induction l as [|c l IH]; intros i Hl; simpl; [constructor|].
  apply Forall_cons in Hl as [Hc Hl]. apply StronglySorted_app.
  split; [|split].
  - intros p q Hp Hq. apply list_elem_of_fmap in Hp as (p' & -> & _).
    apply positions_from_head in Hq as (j & q' & -> & Hj). simpl. left. lia.
  - clear IH. induction Hc as [|p ps Hps IHps Hall]; simpl; [constructor|].
    constructor; [done|]. apply Forall_fmap. eapply Forall_impl; [exact Hall|].
    intros q Hq. simpl. by apply doc_before_cons.
  - by apply IH.
Qed.

(** [positions] is in document order. *)
Lemma positions_sorted (e : Element) : StronglySorted doc_before (positions e).
Proof.
  induction e as [e IH] using Element_children_ind.
  rewrite positions_unfold. constructor; [by apply positions_from_sorted|].
  apply Forall_forall. intros p Hp.
  by apply positions_from_head in Hp as (j & q & -> & _).
Qed.

Lemma positions_from_elem (k : nat) (l : list Element) (i : nat) (c : Element)
    (q : list nat) :
  l !! i = Some c -> q ∈ positions c -> (k + i)%nat :: q ∈ positions_from k l.
Proof.
  revert k i. induction l as [|d l IH]; intros k i Hi Hq; [done|].
  simpl. apply elem_of_app. destruct i as [|i]; simpl in Hi.
  - injection Hi as ->. left. rewrite Nat.add_0_r. by apply list_elem_of_fmap_2.
  - right. replace (k + S i)%nat with (S k + i)%nat by lia. by apply IH.
Qed.

(** [positions] has every position of the tree. *)
Lemma positions_complete (e : Element) (p : list nat) :
  is_Some (subtree_at e p) -> p ∈ positions e.
Proof.
  revert e. induction p as [|i p IH]; intros e Hp; rewrite positions_unfold.
  - left.
  - right. simpl in Hp. destruct (children e !! i) as [c|] eqn:Hc; [|by destruct Hp].
    apply (positions_from_elem 0 _ i c); [done|]. by apply IH.
Qed.

(** ** The lines and the text *)

Lemma omap_line_of (l : list Element) :
  omap line_of l = node_text <$> filter is_line_node l.
Proof.
  induction l as [|n l IH]; [done|]. rewrite filter_cons.
  change (omap line_of (n :: l))
    with (match line_of n with Some y => y :: omap line_of l | None => omap line_of l end).
  rewrite IH. unfold line_of.
  destruct (decide (is_line_node n)) as [[Htag Hne]|Hno]; unfold node_text in *.
  - assert (bool_decide (tag n = qname NS_text "p") || bool_decide (tag n = qname NS_text "h")
            = true) as ->.
    { destruct Htag as [H|H]; rewrite (bool_decide_eq_true_2 _ H); [done|].
      apply orb_true_r. }
    cbv zeta. rewrite fmap_cons. by destruct (strip (concat (itertext n))).
  - destruct (bool_decide (tag n = qname NS_text "p")
              || bool_decide (tag n = qname NS_text "h")) eqn:E; [|done].
    cbv zeta. destruct (strip (concat (itertext n))) eqn:Es; [done|].
    exfalso. apply Hno. split; [|unfold node_text; by rewrite Es].
    apply orb_true_iff in E as [E|E]; apply bool_decide_eq_true in E; auto.
Qed.

Lemma join_concat (sep x : pystr) (rest : list pystr) :
  join sep (x :: rest) = x ++ concat ((fun y => sep ++ y) <$> rest).
Proof.
  revert x. induction rest as [|y rest IH]; intros x.
  - simpl. by rewrite app_nil_r.
  - rewrite join_cons2, IH. simpl. by rewrite <- app_assoc.
Qed.

Lemma join_line_at (sep : pystr) (l : list pystr) (k : nat) (x tail : pystr) :
  l !! k = Some x ->
  exists post, drop (line_start (length sep) l k) (join sep l ++ tail) = x ++ post.
Proof.
  unfold line_start. revert k. induction l as [|y l IH]; intros k Hk; [done|].
  destruct k as [|k]; simpl in Hk.
  - injection Hk as ->. rewrite join_concat, <- app_assoc. by eexists.
  - destruct l as [|z l]; [done|]. rewrite join_cons2.
    destruct (IH k Hk) as [post Hpost]. exists post.
    change (take (S k) (y :: z :: l)) with (y :: take k (z :: l)).
    rewrite fmap_cons.
    change (sum_list (?a :: ?r)) with (a + sum_list r)%nat.
    rewrite <- !app_assoc, <- Nat.add_assoc, !drop_app_add. exact Hpost.
Qed.

Lemma sum_list_append (l k : list nat) : sum_list (l ++ k) = (sum_list l + sum_list k)%nat.
Proof. induction l as [|b l IH]; simpl; [lia|]. rewrite IH. lia. Qed.

Lemma line_start_step (gap : nat) (l : list pystr) (k : nat) (x : pystr) :
  l !! k = Some x ->
  line_start gap l (S k) = (line_start gap l k + (length x + gap))%nat.
Proof.
  intros Hk. unfold line_start. rewrite (take_S_r l k x Hk), fmap_app, sum_list_append. simpl. lia.
Qed.

Lemma StronglySorted_sublist {A} (R : relation A) (l k : list A) :
  l `sublist_of` k -> StronglySorted R k -> StronglySorted R l.
Proof.
  induction 1 as [|x l k Hs IH|x l k Hs IH]; intros Hk; [done|..].
  - apply StronglySorted_inv in Hk as [Hk Hx]. constructor; [by apply IH|].
    apply Forall_forall. intros y Hy. rewrite Forall_forall in Hx. apply Hx.
    by eapply elem_of_sublist.
  - apply StronglySorted_inv in Hk as [Hk _]. by apply IH.
Qed.

Lemma line_nodes_positions (tb : Element) (ps : list (list nat)) (ns : list Element) :
  Forall2 (fun p n => subtree_at tb p = Some n) ps ns ->
  forall ms, ms `sublist_of` node_text <$> filter is_line_node ns ->
    exists qs, qs `sublist_of` ps
      /\ Forall2 (fun q s => exists n, subtree_at tb q = Some n
                                      /\ is_line_node n /\ node_text n = s) qs ms.
Proof.
  induction 1 as [|p n ps ns Hp _ IH]; intros ms Hms.
  - apply sublist_nil_r in Hms as ->. by exists [].
  - rewrite filter_cons in Hms. destruct (decide (is_line_node n)) as [Hn|Hn].
    + rewrite fmap_cons in Hms. apply sublist_cons_r in Hms as [Hms|(ms' & -> & Hms)].
      * destruct (IH ms Hms) as (qs & Hq & HF). exists qs. split; [by constructor|done].
      * destruct (IH ms' Hms) as (qs & Hq & HF). exists (p :: qs).
        split; [by constructor|]. constructor; [by exists n|done].
    + destruct (IH ms Hms) as (qs & Hq & HF). exists qs. split; [by constructor|done].
Qed.

Lemma line_nodes_all (tb : Element) (ps : list (list nat)) (ns : list Element) :
  Forall2 (fun p n => subtree_at tb p = Some n) ps ns ->
  exists qs, qs `sublist_of` ps
    /\ Forall2 (fun q s => exists n, subtree_at tb q = Some n
                                    /\ is_line_node n /\ node_text n = s)
         qs (node_text <$> filter is_line_node ns)
    /\ (forall p n, p ∈ ps -> subtree_at tb p = Some n -> is_line_node n -> p ∈ qs).
Proof.
  induction 1 as [|p n ps ns Hp _ (qs & Hq & HF & Hall)].
  - exists []. split; [done|]. split; [constructor|]. by intros p n ?%elem_of_nil.
  - rewrite filter_cons. destruct (decide (is_line_node n)) as [Hn|Hn].
    + exists (p :: qs). split; [by constructor|]. split.
      { rewrite fmap_cons. constructor; [by exists n|done]. }
      intros p0 n0 [->|Hin]%elem_of_cons H0 Hl; [left|right; by eapply Hall].
    + exists qs. split; [by constructor|]. split; [done|].
      intros p0 n0 [->|Hin]%elem_of_cons H0 Hl; [|by eapply Hall].
      rewrite Hp in H0. by injection H0 as ->.
Qed.

(** C8. For a text document: [iter] lists every node of the text section
    once, in document order (a node before its descendants, the subtree of
    a child before that of a later child); the extracted lines are the
    non-empty trimmed texts of all the paragraph and heading nodes, at
    positions that increase in document order; the cleaned lines, the
    lines of the output, are a subsequence of them with the same members,
    each the text of a paragraph or heading node, at positions that
    increase in document order; and the output is the first cleaned line
    followed by each further one after a blank line, then a newline, so that
    line number [k] stands in the output at an offset that grows with
    [k]. *)
Theorem lines_in_document_order (doc : Path) (root body text_body : Element) :
  file doc = Archive (WellFormed root) ->
  find (qname NS_office "body") root = Some body ->
  find (qname NS_office "text") body = Some text_body ->
  iter text_body = text_body :: concat (iter <$> children text_body)
  /\ extract_lines text_body = omap line_of (iter text_body)
  /\ odt_to_text doc = Ok (join (nl ++ nl) (dedupe (extract_lines text_body)) ++ nl)
  /\ dedupe (extract_lines text_body) `sublist_of` omap line_of (iter text_body)
  /\ (forall s, s ∈ dedupe (extract_lines text_body) <-> s ∈ omap line_of (iter text_body))
  /\ (exists ps,
        Forall2 (fun p n => subtree_at text_body p = Some n) ps (iter text_body)
        /\ StronglySorted doc_before ps
        /\ (forall p, is_Some (subtree_at text_body p) -> p ∈ ps))
  /\ extract_lines text_body = node_text <$> filter is_line_node (iter text_body)
  /\ dedupe (extract_lines text_body) `sublist_of` extract_lines text_body
  /\ odt_to_text doc
     = Ok (match dedupe (extract_lines text_body) with
           | [] => nl
           | x :: rest => x ++ concat ((fun y => nl ++ nl ++ y) <$> rest) ++ nl
           end)
  /\ (forall out k x,
        odt_to_text doc = Ok out ->
        dedupe (extract_lines text_body) !! k = Some x ->
        take (length x) (drop (line_start 2 (dedupe (extract_lines text_body)) k) out) = x
        /\ (line_start 2 (dedupe (extract_lines text_body)) k
            < line_start 2 (dedupe (extract_lines text_body)) (S k))%nat)
  /\ (exists qs,
        StronglySorted doc_before qs
        /\ Forall2 (fun q s => exists n, subtree_at text_body q = Some n
                                        /\ is_line_node n /\ node_text n = s)
             qs (extract_lines text_body)
        /\ (forall p n, subtree_at text_body p = Some n -> is_line_node n -> p ∈ qs))
  /\ (exists qs,
        StronglySorted doc_before qs
        /\ Forall2 (fun q s => exists n, subtree_at text_body q = Some n
                                        /\ is_line_node n /\ node_text n = s)
             qs (dedupe (extract_lines text_body))).
Proof.
  intros Hf Hb Ht.
  pose proof (odt_to_text_joined doc root body text_body Hf Hb Ht) as Hout.
  split; [apply iter_unfold|].
  split; [apply extract_lines_omap|].
  split; [done|].
  rewrite <- extract_lines_omap. split; [apply dedupe_sublist|].
  split; [intros s; apply dedupe_elem_of|].
  split.
  { exists (positions text_body). split; [apply positions_nodes|].
    split; [apply positions_sorted|]. apply positions_complete. }
  split; [by rewrite extract_lines_omap, omap_line_of|].
  split; [apply dedupe_sublist|].
  split.
  { rewrite Hout. f_equal. destruct (dedupe (extract_lines text_body)) as [|x rest]; [done|].
    by rewrite join_concat, <- app_assoc. }
  split.
  { intros out k x Ho Hk.
    assert (out = join (nl ++ nl) (dedupe (extract_lines text_body)) ++ nl) as ->
      by congruence.
    split.
    - destruct (join_line_at (nl ++ nl) _ k x nl Hk) as [post Hpost].
      change (length (nl ++ nl)) with 2%nat in Hpost.
      by rewrite Hpost, take_app_length.
    - rewrite (line_start_step 2 _ k x Hk). lia. }
  pose proof (positions_nodes text_body) as Hps.
  pose proof (positions_sorted text_body) as Hsort.
  assert (extract_lines text_body = node_text <$> filter is_line_node (iter text_body)) as He
    by by rewrite extract_lines_omap, omap_line_of.
  split.
  - destruct (line_nodes_all _ _ _ Hps) as (qs & Hq & HF & Hall). exists qs.
    split; [by eapply StronglySorted_sublist|]. split; [by rewrite He|].
    intros p n Hp Hn. apply (Hall p n); [|done..]. apply positions_complete. by rewrite Hp.
  - destruct (line_nodes_positions _ _ _ Hps (dedupe (extract_lines text_body)))
      as (qs & Hq & HF).
    { rewrite <- He. apply dedupe_sublist. }
    exists qs. split; [by eapply StronglySorted_sublist|done].
Qed.

Lemma lines_in_document_order_witness :
  file nested_odt = Archive (WellFormed (text_root nested_paragraphs))
  /\ find (qname NS_office "body") (text_root nested_paragraphs)
     = Some (node (qname NS_office "body") [node (qname NS_office "text") nested_paragraphs])
  /\ find (qname NS_office "text")
       (node (qname NS_office "body") [node (qname NS_office "text") nested_paragraphs])
     = Some (node (qname NS_office "text") nested_paragraphs)
  /\ extract_lines (node (qname NS_office "text") nested_paragraphs)
     = omap line_of (iter (node (qname NS_office "text") nested_paragraphs)).
Proof.
  split; [reflexivity|]. split; [vm_compute; reflexivity|].
  split; [vm_compute; reflexivity|].
  exact (proj1 (proj2 (lines_in_document_order nested_odt (text_root nested_paragraphs)
                         (node (qname NS_office "body")
                            [node (qname NS_office "text") nested_paragraphs])
                         (node (qname NS_office "text") nested_paragraphs)
                         ltac:(reflexivity) ltac:(vm_compute; reflexivity)
                         ltac:(vm_compute; reflexivity)))).
Defined.

(** ** The spreadsheet extractor *)

Lemma rstrip_snoc_space (s : pystr) (c : N) :
  isspace c = true -> rstrip (s ++ [c]) = rstrip s.
Proof. intros Hc. unfold rstrip. rewrite reverse_snoc. simpl. by rewrite Hc. Qed.

Lemma join_ends (sep x : pystr) (l : list pystr) :
  exists p, join sep (l ++ [x]) = p ++ x.
Proof.
  destruct l as [|y l].
  - by exists [].
  - rewrite join_snoc by done. exists (join sep (y :: l) ++ sep). by rewrite <- app_assoc.
Qed.

(** When the last line before the closing blank one is not empty and has
    no trailing white space, the final [rstrip] only removes the newline of
    the blank line, which the appended newline puts back. *)
Lemma rstrip_join_blank (l : list pystr) (r : pystr) :
  r ≠ [] -> rstrip r = r ->
  rstrip (join nl (l ++ [r; []])) ++ nl = join nl (l ++ [r; []]).
Proof.
  intros Hne Hr.
  change (l ++ [r; []]) with (l ++ [r] ++ [[]]). rewrite app_assoc.
  rewrite join_snoc by (by destruct l).
  destruct (join_ends nl r l) as [p ->]. rewrite app_nil_r.
  unfold nl at 1. rewrite rstrip_snoc_space by done.
  by rewrite rstrip_fixed_app.
Qed.

Lemma iter_append {A} (n : nat) (x : A) (acc : list A) :
  Nat.iter n (fun l => l ++ [x]) acc = acc ++ replicate n x.
Proof.
  induction n as [|n IH]; simpl; [by rewrite app_nil_r|].
  rewrite IH, <- app_assoc. f_equal.
  clear IH. induction n as [|n IH]; simpl; [done|]. by rewrite IH.
Qed.

Lemma fold_left_appending {A B} (f : list B -> A -> list B) (g : A -> list B)
    (l : list A) (acc : list B) :
  (forall acc x, f acc x = acc ++ g x) ->
  fold_left f l acc = acc ++ concat (g <$> l).
Proof.
  intros Hf. revert acc. induction l as [|x l IH]; intros acc; simpl.
  - by rewrite app_nil_r.
  - by rewrite IH, Hf, <- app_assoc.
Qed.

Lemma split_on_no_sep (sep : N) (s : pystr) :
  sep ∉ s -> split_on sep s = [s].
Proof.
  induction s as [|c s IH]; [done|]. intros [Hc Hs]%not_elem_of_cons. simpl.
  destruct (N.eqb_spec c sep) as [->|_]; [done|]. by rewrite IH.
Qed.

Lemma split_on_app (sep : N) (s rest : pystr) :
  sep ∉ s -> split_on sep (s ++ sep :: rest) = s :: split_on sep rest.
Proof.
  induction s as [|c s IH]; simpl.
  - intros _. by rewrite N.eqb_refl.
  - intros [Hc Hs]%not_elem_of_cons.
    destruct (N.eqb_spec c sep) as [->|_]; [done|]. by rewrite IH.
Qed.

(** Splitting a join gives the parts back, when no part holds the
    separator. *)
Lemma split_on_join (sep : N) (l : list pystr) :
  l ≠ [] -> Forall (fun s => sep ∉ s) l -> split_on sep (join [sep] l) = l.
Proof.
  induction l as [|x l IH]; [done|]. intros _ [Hx Hl]%Forall_cons.
  destruct l as [|y l]; [by apply split_on_no_sep|].
  rewrite join_cons2.
  change ([sep] ++ join [sep] (y :: l)) with (sep :: join [sep] (y :: l)).
  rewrite split_on_app by done. by rewrite IH.
Qed.

Section Extractors.

Context {rt : Runtime}.

Lemma repeats_pos (n : Z) : (1 <= repeats n)%nat.
Proof. unfold repeats. lia. Qed.

Lemma repeats_int_attr (el : Element) (qn : pystr) :
  repeats (_int_attr el qn 1)
  = match attrib el !! qn with
    | None => 1%nat
    | Some s =>
        match int_of_str s with
        | None => 1%nat
        | Some n => if (n <? 1)%Z then 1%nat else Z.to_nat n
        end
    end.
Proof.
  unfold _int_attr, repeats. destruct (attrib el !! qn) as [s|]; [|done].
  destruct (int_of_str s) as [n|]; [|done].
  destruct (Z.ltb_spec n 1); lia.
Qed.

Lemma add_cell_spec (cells : list pystr) (c : Element) :
  add_cell cells c = cells ++ cell_values c.
Proof. unfold add_cell. by rewrite iter_append. Qed.

Lemma row_cells_spec (r : Element) :
  row_cells r
  = concat (cell_values <$> findall (qname NS_table "table-cell") r).
Proof.
  unfold row_cells. by rewrite (fold_left_appending _ _ _ _ add_cell_spec).
Qed.

Lemma add_row_spec (out_lines : list pystr) (r : Element) :
  add_row out_lines r = out_lines ++ row_lines r.
Proof. unfold add_row. by rewrite iter_append. Qed.

Lemma add_table_spec (out_lines : list pystr) (t : Element) :
  add_table out_lines t = out_lines ++ table_lines t.
Proof.
  unfold add_table, table_lines.
  rewrite (fold_left_appending _ _ _ _ add_row_spec).
  by rewrite <- !app_assoc.
Qed.

Lemma sheet_lines_spec (spreadsheet : Element) :
  sheet_lines spreadsheet
  = concat (table_lines <$> findall (qname NS_table "table") spreadsheet).
Proof.
  unfold sheet_lines. by rewrite (fold_left_appending _ _ _ _ add_table_spec).
Qed.

Lemma cell_text_tidy (c : Element) : tidy (cell_text c).
Proof. apply strip_tidy. Qed.

Lemma row_cells_tidy (r : Element) : Forall tidy (row_cells r).
Proof.
  rewrite row_cells_spec. apply Forall_concat, Forall_fmap, Forall_forall.
  intros c _. apply Forall_replicate, cell_text_tidy.
Qed.

Lemma rendered_exact (r : Element) (v : pystr) :
  last (row_cells r) = Some v -> v ≠ [] ->
  rendered r = join tab (row_cells r).
Proof.
  intros Hlast Hne. unfold rendered.
  pose proof (row_cells_tidy r) as Ht.
  apply last_Some in Hlast as [l Hl]. rewrite Hl in *.
  apply Forall_app in Ht as [_ Hv]. apply Forall_singleton in Hv as [_ Hv].
  destruct (join_ends tab v l) as [p ->]. by apply rstrip_fixed_app.
Qed.

Lemma rendered_rstripped (r : Element) :
  rstrip (rendered r) = rendered r.
Proof. apply rstrip_idemp. Qed.

Lemma ods_to_text_joined (doc : Path) (root body spreadsheet : Element) :
  file doc = Archive (WellFormed root) ->
  find (qname NS_office "body") root = Some body ->
  find (qname NS_office "spreadsheet") body = Some spreadsheet ->
  ods_to_text doc
  = Ok (rstrip (join nl (sheet_lines spreadsheet)) ++ nl).
Proof.
  intros Hf Hb Hs. unfold ods_to_text, _read_content_xml. rewrite Hf. simpl.
  by rewrite Hb, Hs.
Qed.

End Extractors.

Lemma rstrip_join_blanks (c : N) (l : list pystr) (n : nat) :
  isspace c = true ->
  rstrip (join [c] (l ++ replicate n [])) = rstrip (join [c] l).
Proof.
  intros Hc. induction n as [|n IH]; [by rewrite app_nil_r|].
  rewrite replicate_S_end, app_assoc.
  destruct (l ++ replicate n []) as [|y m] eqn:E.
  - apply app_eq_nil in E as [El _]. subst l. reflexivity.
  - rewrite join_snoc by done. rewrite app_nil_r, rstrip_snoc_space by done.
    exact IH.
Qed.

Section ExtractorClaims.

Context {rt : Runtime}.

(** C2, amended. For a spreadsheet document, a row node with effective
    repeat count N adds exactly N copies of its rendered row to the
    emitted lines, and a cell node with effective column-repeat count M
    adds its text exactly M times to the cell values of its row, both
    counts being at least 1. The rendered row is the tab-join of the cell
    values with trailing white space trimmed, and the output is the
    newline-join of the emitted lines with trailing white space trimmed,
    plus a newline: trailing empty cells and trailing blank rows are not
    in the output, which is what the row and the sheets give without
    them. When the last cell value of a row is not empty the rendered row
    is exactly the tab-join of its cell values, and its tab-separated
    fields are exactly the cell values if none of them holds a tab. When
    the last line emitted before the closing blank line is not empty and
    has no trailing white space, as is the case when it is a rendered row,
    the output is exactly the newline-join of the emitted lines, and its
    lines are exactly the emitted lines if none of them holds a
    newline. *)
Theorem repeats_materialize (doc : Path) (root body spreadsheet : Element) :
  file doc = Archive (WellFormed root) ->
  find (qname NS_office "body") root = Some body ->
  find (qname NS_office "spreadsheet") body = Some spreadsheet ->
  ods_to_text doc
  = Ok (rstrip (join nl (sheet_lines spreadsheet)) ++ nl)
  /\ sheet_lines spreadsheet
     = concat (table_lines <$> findall (qname NS_table "table") spreadsheet)
  /\ (forall out_lines r,
        add_row out_lines r
        = out_lines ++ replicate (row_repeat r) (rendered r))
  /\ (forall cells c,
        add_cell cells c
        = cells ++ replicate (col_repeat c) (cell_text c))
  /\ (forall r,
        row_cells r
        = concat (cell_values <$> findall (qname NS_table "table-cell") r))
  /\ (forall el, (1 <= row_repeat el)%nat /\ (1 <= col_repeat el)%nat)
  /\ (forall r v,
        last (row_cells r) = Some v -> v ≠ [] ->
        rendered r = join tab (row_cells r))
  /\ (forall l r,
        sheet_lines spreadsheet = l ++ [r; []] -> r ≠ [] -> rstrip r = r ->
        ods_to_text doc = Ok (join nl (sheet_lines spreadsheet)))
  /\ (forall l r,
        sheet_lines spreadsheet = l ++ [r; []] -> r ≠ [] -> rstrip r = r ->
        Forall (fun s => 10 ∉ s) (sheet_lines spreadsheet) ->
        exists out, ods_to_text doc = Ok out /\ split_on 10 out = sheet_lines spreadsheet)
  /\ (forall r v,
        last (row_cells r) = Some v -> v ≠ [] ->
        Forall (fun s => 9 ∉ s) (row_cells r) ->
        split_on 9 (rendered r) = row_cells r)
  /\ (forall r, rendered r = rstrip (join tab (row_cells r)))
  /\ (forall l n,
        sheet_lines spreadsheet = l ++ replicate n [] ->
        ods_to_text doc = Ok (rstrip (join nl l) ++ nl))
  /\ (forall r l n,
        row_cells r = l ++ replicate n [] -> rendered r = rstrip (join tab l))
  /\ (forall l r,
        sheet_lines spreadsheet = l ++ [rendered r; []] -> rendered r ≠ [] ->
        ods_to_text doc = Ok (join nl (sheet_lines spreadsheet))).
Proof.
  intros Hf Hb Hs.
  pose proof (ods_to_text_joined doc root body spreadsheet Hf Hb Hs) as Hout.
  split; [done|].
  split; [apply sheet_lines_spec|].
  split; [apply add_row_spec|].
  split; [apply add_cell_spec|].
  split; [apply row_cells_spec|].
  split; [intros el; split; apply repeats_pos|].
  split; [apply rendered_exact|].
  assert (forall l r,
            sheet_lines spreadsheet = l ++ [r; []] -> r ≠ [] -> rstrip r = r ->
            ods_to_text doc = Ok (join nl (sheet_lines spreadsheet))) as Hexact.
  { intros l r Hl Hne Hr. rewrite Hout, Hl. f_equal. by apply rstrip_join_blank. }
  split; [done|]. split.
  { intros l r Hl Hne Hr Hnl. exists (join nl (sheet_lines spreadsheet)).
    split; [by eapply Hexact|].
    apply split_on_join; [|done]. rewrite Hl. by destruct l. }
  split.
  { intros r v Hv Hne Htab. rewrite (rendered_exact r v Hv Hne).
    apply split_on_join; [|done]. intros E. by rewrite E in Hv. }
  split; [done|]. split.
  { intros l n Hl. rewrite Hout, Hl. do 2 f_equal. by apply rstrip_join_blanks. }
  split.
  { intros r l n Hl. unfold rendered. rewrite Hl. by apply rstrip_join_blanks. }
  intros l r Hl Hne. by apply (Hexact l (rendered r) Hl Hne), rendered_rstripped.
Qed.

(** C7. The number of times a row or a cell is materialized is at least
    1: it is 1 when the repeat attribute is absent, 1 when its value is
    not an integer literal, 1 when the integer is below 1, and the integer
    itself otherwise; that is the number of entries the cell adds to the
    cell values and the row adds to the emitted lines. *)
Theorem repeat_count_at_least_one (el : Element) (qn : pystr) (acc : list pystr) :
  (1 <= repeats (_int_attr el qn 1))%nat
  /\ repeats (_int_attr el qn 1)
     = match attrib el !! qn with
       | None => 1%nat
       | Some s =>
           match int_of_str s with
           | None => 1%nat
           | Some n => if (n <? 1)%Z then 1%nat else Z.to_nat n
           end
       end
  /\ length (add_cell acc el)
     = (length acc
        + repeats (_int_attr el (qname NS_table "number-columns-repeated") 1))%nat
  /\ length (add_row acc el)
     = (length acc
        + repeats (_int_attr el (qname NS_table "number-rows-repeated") 1))%nat.
Proof.
  split; [apply repeats_pos|]. split; [apply repeats_int_attr|].
  rewrite add_cell_spec, add_row_spec. unfold cell_values, row_lines.
  by rewrite !length_app, !length_replicate.
Qed.

(** C6. For markup that is well formed, [odt_to_text] and [ods_to_text]
    return the empty string, without raising, when the root has no office
    body and when the body has no text section, respectively no
    spreadsheet section; a text section without lines and a spreadsheet
    section without sheets give a lone newline. *)
Theorem bodyless_input_is_empty (doc : Path) (root : Element) :
  file doc = Archive (WellFormed root) ->
  (find (qname NS_office "body") root = None ->
     odt_to_text doc = Ok [] /\ ods_to_text doc = Ok [])
  /\ (forall body,
        find (qname NS_office "body") root = Some body ->
        (find (qname NS_office "text") body = None -> odt_to_text doc = Ok [])
        /\ (find (qname NS_office "spreadsheet") body = None ->
              ods_to_text doc = Ok [])
        /\ (forall text_body,
              find (qname NS_office "text") body = Some text_body ->
              extract_lines text_body = [] -> odt_to_text doc = Ok nl)
        /\ (forall spreadsheet,
              find (qname NS_office "spreadsheet") body = Some spreadsheet ->
              findall (qname NS_table "table") spreadsheet = [] ->
              ods_to_text doc = Ok nl)).
Proof.
  intros Hf. unfold odt_to_text, ods_to_text, _read_content_xml. rewrite Hf. simpl.
  split.
  - by intros ->.
  - intros body ->. split; [by intros ->|]. split; [by intros ->|]. split.
    + by intros text_body -> ->.
    + intros spreadsheet -> Hnone. unfold sheet_lines. by rewrite Hnone.
Qed.

End ExtractorClaims.

Lemma repeats_materialize_witness :
  file data_ods
  = Archive (WellFormed (sheet_root [sheet [(qname NS_table "name", "Data")] [data_row]]))
  /\ find (qname NS_office "body")
       (sheet_root [sheet [(qname NS_table "name", "Data")] [data_row]])
     = Some (node (qname NS_office "body")
               [node (qname NS_office "spreadsheet")
                  [sheet [(qname NS_table "name", "Data")] [data_row]]])
  /\ find (qname NS_office "spreadsheet")
       (node (qname NS_office "body")
          [node (qname NS_office "spreadsheet")
             [sheet [(qname NS_table "name", "Data")] [data_row]]])
     = Some (node (qname NS_office "spreadsheet")
               [sheet [(qname NS_table "name", "Data")] [data_row]])
  /\ ods_to_text data_ods
     = Ok (rstrip (join nl (sheet_lines
                              (node (qname NS_office "spreadsheet")
                                 [sheet [(qname NS_table "name", "Data")] [data_row]]))) ++ nl).
Proof.
  split; [reflexivity|]. split; [vm_compute; reflexivity|].
  split; [vm_compute; reflexivity|].
  exact (proj1 (repeats_materialize data_ods
                  (sheet_root [sheet [(qname NS_table "name", "Data")] [data_row]])
                  (node (qname NS_office "body")
                     [node (qname NS_office "spreadsheet")
                        [sheet [(qname NS_table "name", "Data")] [data_row]]])
                  (node (qname NS_office "spreadsheet")
                     [sheet [(qname NS_table "name", "Data")] [data_row]])
                  ltac:(reflexivity) ltac:(vm_compute; reflexivity)
                  ltac:(vm_compute; reflexivity))).
Defined.

(** The sample spreadsheet of the specification. *)
Example data_ods_text :
  ods_to_text data_ods
  = Ok (py "## Data" ++ nl ++ py "A" ++ tab ++ py "B" ++ nl ++ py "A" ++ tab ++ py "B" ++ nl).
Proof. vm_compute. reflexivity. Qed.

(** C2 as stated fails on a sheet that ends with padding: the blank row
    repeated three times leaves no line in the output, and the empty cell
    repeated three times leaves no field in its rendered row. *)
Lemma repeats_materialize_counterexample :
  ods_to_text padded_ods = Ok (py "## Data" ++ nl ++ py "A" ++ nl)
  /\ row_repeat blank_row = 3%nat
  /\ ~ rows_repeated_in_output padded_ods
  /\ rendered padded_row = py "A"
  /\ ~ cells_repeated_in_row padded_row.
Proof.
  split; [vm_compute; reflexivity|]. split; [vm_compute; reflexivity|]. split; [|split].
  - intros H.
    destruct (H (sheet_root [padded_sheet])
                (node (qname NS_office "body") [node (qname NS_office "spreadsheet") [padded_sheet]])
                (node (qname NS_office "spreadsheet") [padded_sheet])
                (py "## Data" ++ nl ++ py "A" ++ nl) padded_sheet blank_row)
      as (before & after & E).
    + reflexivity.
    + vm_compute; reflexivity.
    + vm_compute; reflexivity.
    + vm_compute; reflexivity.
    + assert (findall (qname NS_table "table") (node (qname NS_office "spreadsheet") [padded_sheet])
              = [padded_sheet]) as -> by (vm_compute; reflexivity).
      apply list_elem_of_here.
    + assert (findall (qname NS_table "table-row") padded_sheet = [padded_row; blank_row])
        as -> by (vm_compute; reflexivity).
      apply list_elem_of_further, list_elem_of_here.
    + assert (row_repeat blank_row = 3%nat) as Hn by (vm_compute; reflexivity).
      assert (rendered blank_row = []) as Hr by (vm_compute; reflexivity).
      assert (split_on 10 (py "## Data" ++ nl ++ py "A" ++ nl) = [py "## Data"; py "A"; []])
        as Hs by (vm_compute; reflexivity).
      rewrite Hn, Hr, Hs in E. clear Hn Hr Hs H.
      destruct before as [|b before]; simpl in E.
      * discriminate E.
      * apply (f_equal length) in E. simpl in E. rewrite length_app in E. simpl in E. lia.
  - vm_compute; reflexivity.
  - intros H.
    destruct (H (cell [(qname NS_table "number-columns-repeated", "3")] []))
      as (before & after & E).
    + assert (findall (qname NS_table "table-cell") padded_row
              = [cell [] [para "A"]; cell [(qname NS_table "number-columns-repeated", "3")] []])
        as -> by (vm_compute; reflexivity).
      apply list_elem_of_further, list_elem_of_here.
    + assert (col_repeat (cell [(qname NS_table "number-columns-repeated", "3")] [])
              = 3%nat) as Hn by (vm_compute; reflexivity).
      assert (split_on 9 (rendered padded_row) = [py "A"]) as Hs
        by (vm_compute; reflexivity).
      rewrite Hn, Hs in E. clear Hn Hs H.
      apply (f_equal length) in E. rewrite length_app in E. simpl in E. lia.
Qed.

(** ** The batch driver *)

Section Batch.

Context {rt : Runtime}.


Lemma process_unfold (ov : bool) (t : tally) (w : world) (doc : Path) :
  process ov (t, w) doc
  = if skips ov doc w then (mkTally (converted t) (S (skipped t)) (failed t), w)
    else
      match attempt doc w with
      | (w', Ok _) => (mkTally (S (converted t)) (skipped t) (failed t), w')
      | (w', Raise e) =>
          (mkTally (converted t) (skipped t) (S (failed t)), print_err (diagnostic doc e) w')
      end.
Proof.
  unfold process, skips, attempt, diagnostic.
  destruct (_ && _); [done|]. destruct convert_one as [text|e]; [|done].
  by destruct (write_text _ _ _) as [w' [u|e]].
Qed.

Lemma run_app (ov : bool) (l1 l2 : list Path) (st : tally * world) :
  run ov (l1 ++ l2) st = run ov l2 (run ov l1 st).
Proof. apply fold_left_app. Qed.

Lemma run_cons (ov : bool) (doc : Path) (l : list Path) (st : tally * world) :
  run ov (doc :: l) st = run ov l (process ov st doc).
Proof. done. Qed.

Lemma length_outcomes (ov : bool) (files : list Path) (st : tally * world) :
  length (outcomes ov files st) = length files.
Proof.
  revert st. induction files as [|doc files IH]; intros st; simpl; [done|].
  by rewrite IH.
Qed.

(** *** One write, one attempt, one file *)

Lemma write_text_files (p text : pystr) (w : world) :
  out_files (fst (write_text p text w)) = out_files w
  \/ exists c, out_files (fst (write_text p text w)) = <[p := c]> (out_files w).
Proof.
  unfold write_text. destruct (pending w) as [|[|e|n e] rest]; simpl; eauto.
Qed.

Lemma write_text_ok (p text : pystr) (w w' : world) (u : unit) :
  write_text p text w = (w', Ok u) ->
  out_files w' = <[p := text]> (out_files w)
  /\ write_succeeds w = true.
Proof.
  unfold write_text, write_succeeds.
  by destruct (pending w) as [|[|e|n e] rest]; simpl; intros [= <-].
Qed.

Lemma write_text_streams (p text : pystr) (w : world) :
  stdout (fst (write_text p text w)) = stdout w
  /\ stderr (fst (write_text p text w)) = stderr w.
Proof. unfold write_text. by destruct (pending w) as [|[|e|n e] rest]. Qed.

Lemma attempt_files (doc : Path) (w : world) :
  out_files (fst (attempt doc w)) = out_files w
  \/ exists c, out_files (fst (attempt doc w)) = <[out_path doc := c]> (out_files w).
Proof.
  unfold attempt. destruct (convert_one doc) as [text|e]; [|by left].
  apply write_text_files.
Qed.

Lemma attempt_streams (doc : Path) (w : world) :
  stdout (fst (attempt doc w)) = stdout w /\ stderr (fst (attempt doc w)) = stderr w.
Proof.
  unfold attempt. destruct (convert_one doc) as [text|e]; [|done].
  apply write_text_streams.
Qed.

Lemma attempt_ok (doc : Path) (w w' : world) (u : unit) :
  attempt doc w = (w', Ok u) ->
  exists text,
    convert_one doc = Ok text
    /\ out_files w' = <[out_path doc := text]> (out_files w)
    /\ write_succeeds w = true.
Proof.
  unfold attempt. destruct (convert_one doc) as [text|e]; [|done].
  intros H. exists text. split; [done|]. by eapply write_text_ok.
Qed.

Lemma outcome_skipped (ov : bool) (w : world) (doc : Path) :
  outcome_of ov w doc = Skipped <-> skips ov doc w = true.
Proof.
  unfold outcome_of. destruct (skips ov doc w); [done|].
  destruct (attempt doc w) as [w' [u|e]]; done.
Qed.

Lemma process_skipped (ov : bool) (t : tally) (w : world) (doc : Path) :
  outcome_of ov w doc = Skipped ->
  process ov (t, w) doc = (mkTally (converted t) (S (skipped t)) (failed t), w).
Proof. intros H%outcome_skipped. by rewrite process_unfold, H. Qed.

Lemma process_converted (ov : bool) (t : tally) (w : world) (doc : Path) :
  outcome_of ov w doc = Converted ->
  process ov (t, w) doc
  = (mkTally (S (converted t)) (skipped t) (failed t), fst (attempt doc w)).
Proof.
  rewrite process_unfold. unfold outcome_of. destruct (skips ov doc w); [done|].
  destruct (attempt doc w) as [w' [u|e]]; done.
Qed.

Lemma process_failed (ov : bool) (t : tally) (w : world) (doc : Path) (e : exn) :
  outcome_of ov w doc = Failed e ->
  process ov (t, w) doc
  = (mkTally (converted t) (skipped t) (S (failed t)),
     print_err (diagnostic doc e) (fst (attempt doc w))).
Proof.
  rewrite process_unfold. unfold outcome_of. destruct (skips ov doc w); [done|].
  destruct (attempt doc w) as [w' [u|e']]; [done|]. by intros [= ->].
Qed.

(** A failure is an exception of [convert_one] or of [write_text], in a
    file that is not skipped. *)
Lemma outcome_failed (ov : bool) (w : world) (doc : Path) (e : exn) :
  outcome_of ov w doc = Failed e <->
  skips ov doc w = false
  /\ (convert_one doc = Raise e
      \/ exists text,
           convert_one doc = Ok text /\ snd (write_text (out_path doc) text w) = Raise e).
Proof.
  unfold outcome_of, attempt. destruct (skips ov doc w).
  - split; [done|]. by intros [? _].
  - destruct (convert_one doc) as [text|e'].
    + destruct (write_text (out_path doc) text w) as [w' [u|e']] eqn:E.
      * split; [done|]. intros [_ [?|(text' & [= <-] & H)]]; [done|].
        rewrite E in H. done.
      * split.
        -- intros [= ->]. split; [done|]. right. exists text. by rewrite E.
        -- intros [_ [?|(text' & [= <-] & H)]]; [done|]. rewrite E in H. simpl in H.
           congruence.
    + split.
      * intros [= ->]. split; [done|]. by left.
      * intros [_ [[= ->]|(text' & ? & _)]]; done.
Qed.

Lemma process_files (ov : bool) (st : tally * world) (doc : Path) :
  out_files (snd (process ov st doc)) = out_files (snd st)
  \/ (skips ov doc (snd st) = false
      /\ exists c,
           out_files (snd (process ov st doc)) = <[out_path doc := c]> (out_files (snd st))).
Proof.
  destruct st as [t w]. rewrite process_unfold. simpl.
  destruct (skips ov doc w); [by left|].
  pose proof (attempt_files doc w) as H.
  destruct (attempt doc w) as [w' [u|e]]; simpl in *;
    (destruct H as [H|H]; [by left|right; by split]).
Qed.

Lemma process_other_path (ov : bool) (st : tally * world) (doc : Path) (p : pystr) :
  p ≠ out_path doc ->
  out_files (snd (process ov st doc)) !! p = out_files (snd st) !! p.
Proof.
  intros Hp. destruct (process_files ov st doc) as [->|(_ & c & ->)]; [done|].
  by rewrite lookup_insert_ne.
Qed.

Lemma process_exists_mono (ov : bool) (st : tally * world) (doc : Path) (p : pystr) :
  is_Some (out_files (snd st) !! p) -> is_Some (out_files (snd (process ov st doc)) !! p).
Proof.
  intros Hp. destruct (process_files ov st doc) as [->|(_ & c & ->)]; [done|].
  destruct (decide (out_path doc = p)) as [->|Hne].
  - rewrite lookup_insert_eq. eauto.
  - by rewrite lookup_insert_ne.
Qed.

Lemma skips_false_absent (doc : Path) (w : world) :
  skips false doc w = false -> out_files w !! out_path doc = None.
Proof.
  unfold skips, exists_. rewrite andb_true_r. intros H%bool_decide_eq_false.
  by apply eq_None_not_Some.
Qed.

Lemma skips_exists (doc : Path) (w : world) :
  is_Some (out_files w !! out_path doc) -> skips false doc w = true.
Proof.
  intros H. unfold skips, exists_. by rewrite bool_decide_eq_true_2.
Qed.

Lemma skips_overwrite (doc : Path) (w : world) : skips true doc w = false.
Proof. unfold skips. by rewrite andb_false_r. Qed.

Lemma process_keeps_existing (st : tally * world) (doc : Path) (p c : pystr) :
  out_files (snd st) !! p = Some c ->
  out_files (snd (process false st doc)) !! p = Some c.
Proof.
  intros Hp. destruct (process_files false st doc) as [->|(Hs & c' & ->)]; [done|].
  apply skips_false_absent in Hs. rewrite lookup_insert_ne; [done|]. congruence.
Qed.

(** *** A whole run *)

Lemma run_exists_mono (ov : bool) (files : list Path) (st : tally * world) (p : pystr) :
  is_Some (out_files (snd st) !! p) ->
  is_Some (out_files (snd (run ov files st)) !! p).
Proof.
  revert st. induction files as [|doc files IH]; intros st Hp; [done|].
  rewrite run_cons. by apply IH, process_exists_mono.
Qed.

Lemma run_keeps_existing (files : list Path) (st : tally * world) (p c : pystr) :
  out_files (snd st) !! p = Some c ->
  out_files (snd (run false files st)) !! p = Some c.
Proof.
  revert st. induction files as [|doc files IH]; intros st Hp; [done|].
  rewrite run_cons. by apply IH, process_keeps_existing.
Qed.

Lemma process_streams (ov : bool) (st : tally * world) (doc : Path) :
  stdout (snd (process ov st doc)) = stdout (snd st)
  /\ stderr (snd (process ov st doc))
     = stderr (snd st)
       ++ match outcome_of ov (snd st) doc with
          | Failed e => [diagnostic doc e]
          | _ => []
          end.
Proof.
  destruct st as [t w]. cbn [fst snd].
  destruct (attempt_streams doc w) as [Hout Herr].
  destruct (outcome_of ov w doc) eqn:E.
  - rewrite (process_converted _ _ _ _ E). simpl. by rewrite app_nil_r.
  - rewrite (process_skipped _ _ _ _ E). simpl. by rewrite app_nil_r.
  - rewrite (process_failed _ _ _ _ _ E). simpl. by rewrite Hout, Herr.
Qed.

Lemma process_tally (ov : bool) (st : tally * world) (doc : Path) :
  let t := fst st in
  let t' := fst (process ov st doc) in
  (converted t' + skipped t' + failed t' = S (converted t + skipped t + failed t))%nat
  /\ failed t' = (failed t + if is_failed (outcome_of ov (snd st) doc) then 1 else 0)%nat.
Proof.
  destruct st as [t w]. cbn zeta. cbn [fst snd].
  destruct (outcome_of ov w doc) eqn:E.
  - rewrite (process_converted _ _ _ _ E). simpl. lia.
  - rewrite (process_skipped _ _ _ _ E). simpl. lia.
  - rewrite (process_failed _ _ _ _ _ E). simpl. lia.
Qed.

Lemma run_total (ov : bool) (files : list Path) (st : tally * world) :
  (converted (fst (run ov files st)) + skipped (fst (run ov files st))
   + failed (fst (run ov files st))
   = converted (fst st) + skipped (fst st) + failed (fst st) + length files)%nat.
Proof.
  revert st. induction files as [|doc files IH]; intros st; simpl; [lia|].
  fold (run ov files (process ov st doc)). rewrite IH.
  destruct (process_tally ov st doc) as [-> _]. lia.
Qed.

Lemma run_failed (ov : bool) (files : list Path) (st : tally * world) :
  failed (fst (run ov files st))
  = (failed (fst st) + length (filter is_failed (outcomes ov files st)))%nat.
Proof.
  revert st. induction files as [|doc files IH]; intros st; simpl; [lia|].
  fold (run ov files (process ov st doc)). rewrite IH.
  destruct (process_tally ov st doc) as [_ ->]. rewrite filter_cons.
  destruct (outcome_of ov (snd st) doc); simpl; lia.
Qed.

Lemma run_streams (ov : bool) (files : list Path) (st : tally * world) :
  stdout (snd (run ov files st)) = stdout (snd st)
  /\ stderr (snd (run ov files st))
     = stderr (snd st) ++ diagnostics files (outcomes ov files st).
Proof.
  revert st. induction files as [|doc files IH]; intros st; simpl.
  - by rewrite app_nil_r.
  - fold (run ov files (process ov st doc)).
    destruct (IH (process ov st doc)) as [-> ->].
    destruct (process_streams ov st doc) as [-> ->].
    split; [done|]. rewrite <- app_assoc. f_equal.
    unfold diagnostics. simpl. by destruct (outcome_of ov (snd st) doc).
Qed.

Lemma failed_in_outcomes (os : list outcome) :
  (exists e, Failed e ∈ os) <-> (0 < length (filter is_failed os))%nat.
Proof.
  split.
  - intros [e He].
    assert (Failed e ∈ filter is_failed os) as H by (by apply list_elem_of_filter).
    destruct (filter is_failed os); [by apply elem_of_nil in H|simpl; lia].
  - destruct (filter is_failed os) as [|o l] eqn:E; simpl; [lia|]. intros _.
    assert (o ∈ filter is_failed os) as H by (rewrite E; left).
    apply list_elem_of_filter in H as [Hf Ho]. destruct o; try done. eauto.
Qed.

Lemma outcomes_lookup_skip (files : list Path) (st : tally * world) (i : nat) (d : Path) :
  files !! i = Some d ->
  is_Some (out_files (snd st) !! out_path d) ->
  outcomes false files st !! i = Some Skipped.
Proof.
  revert i st. induction files as [|doc files IH]; intros i st Hi Hd; [done|].
  destruct i as [|i]; simpl in *.
  - injection Hi as ->. f_equal. by apply outcome_skipped, skips_exists.
  - apply IH; [done|]. by apply process_exists_mono.
Qed.

Lemma process_not_failed_exists (ov : bool) (st : tally * world) (doc : Path) :
  is_failed (outcome_of ov (snd st) doc) = false ->
  is_Some (out_files (snd (process ov st doc)) !! out_path doc).
Proof.
  destruct st as [t w]. cbn [fst snd]. destruct (outcome_of ov w doc) eqn:E; [| |done]; intros _.
  - rewrite (process_converted _ _ _ _ E). simpl.
    unfold outcome_of in E. destruct (skips ov doc w); [done|].
    destruct (attempt doc w) as [w' [u|e]] eqn:Ea; [|done].
    apply attempt_ok in Ea as (text & _ & Hw & _). simpl.
    rewrite Hw, lookup_insert_eq. eauto.
  - rewrite (process_skipped _ _ _ _ E). simpl.
    apply outcome_skipped in E. unfold skips, exists_ in E.
    apply andb_true_iff in E as [E _]. by apply bool_decide_eq_true in E.
Qed.

Lemma outcomes_not_failed_exists (ov : bool) (files : list Path) (st : tally * world)
    (i : nat) (d : Path) (o : outcome) :
  files !! i = Some d ->
  outcomes ov files st !! i = Some o ->
  is_failed o = false ->
  is_Some (out_files (snd (run ov files st)) !! out_path d).
Proof.
  revert i st. induction files as [|doc files IH]; intros i st Hi Ho Hf; [done|].
  rewrite run_cons. destruct i as [|i]; simpl in *.
  - injection Hi as ->. injection Ho as <-.
    by apply run_exists_mono, process_not_failed_exists.
  - by eapply IH.
Qed.

Lemma run_all_skipped (files : list Path) (t : tally) (w : world) :
  (forall d, d ∈ files -> is_Some (out_files w !! out_path d)) ->
  run false files (t, w)
  = (mkTally (converted t) (skipped t + length files) (failed t), w).
Proof.
  revert t. induction files as [|doc files IH]; intros t H.
  - simpl. rewrite Nat.add_0_r. by destruct t.
  - rewrite run_cons, process_skipped.
    + rewrite IH; [|intros d Hd; apply H; by right]. simpl. do 2 f_equal. lia.
    + apply outcome_skipped, skips_exists, H. by left.
Qed.

Lemma run_no_failure_all_exist (ov : bool) (files : list Path) (st : tally * world) :
  failed (fst (run ov files st)) = failed (fst st) ->
  forall d, d ∈ files -> is_Some (out_files (snd (run ov files st)) !! out_path d).
Proof.
  rewrite run_failed. intros H d Hd.
  apply list_elem_of_lookup in Hd as [i Hi].
  assert (is_Some (outcomes ov files st !! i)) as [o Ho].
  { apply lookup_lt_is_Some. rewrite length_outcomes. by eapply lookup_lt_Some. }
  eapply outcomes_not_failed_exists; [done..|].
  destruct (is_failed o) eqn:Hf; [|done].
  assert (o ∈ filter is_failed (outcomes ov files st)) as Hin.
  { apply list_elem_of_filter. split; [by rewrite Hf|]. by eapply list_elem_of_lookup_2. }
  destruct (filter is_failed (outcomes ov files st)); [by apply elem_of_nil in Hin|].
  simpl in H. lia.
Qed.

(** *** main *)

Lemma main_status (args : Args) (listing : list Path) (w : world) :
  fst (main args listing w)
  = if (failed (fst (run (overwrite args) (enumerate listing) (mkTally 0 0 0, w))) =? 0)%nat
    then 0%Z else 2%Z.
Proof.
  unfold main. destruct (enumerate listing) as [|d l]; [done|].
  by destruct (run (overwrite args) (d :: l) (mkTally 0 0 0, w)) as [t w'].
Qed.

Lemma main_files (args : Args) (listing : list Path) (w : world) :
  out_files (snd (main args listing w))
  = out_files (snd (run (overwrite args) (enumerate listing) (mkTally 0 0 0, w))).
Proof.
  unfold main. destruct (enumerate listing) as [|d l]; [done|].
  by destruct (run (overwrite args) (d :: l) (mkTally 0 0 0, w)) as [t w'].
Qed.

Lemma enumerate_none (listing : list Path) :
  (forall p, p ∈ listing ->
             ~ py ".odt" `suffix_of` name p /\ ~ py ".ods" `suffix_of` name p) ->
  enumerate listing = [].
Proof.
  intros H. unfold enumerate, glob.
  assert (forall ext, (ext = ".odt" \/ ext = ".ods")%string ->
            filter (fun p => py ext `suffix_of` name p) listing = []) as Hnil.
  { intros ext Hext.
    destruct (filter (fun p => py ext `suffix_of` name p) listing) as [|p l] eqn:E; [done|].
    assert (p ∈ filter (fun p => py ext `suffix_of` name p) listing) as Hp
      by (rewrite E; left).
    apply list_elem_of_filter in Hp as [Hs Hp].
    destruct (H p Hp) as [H1 H2]. by destruct Hext as [-> | ->]. }
  by rewrite !Hnil by auto.
Qed.

Lemma main_streams (args : Args) (listing : list Path) (w : world) :
  stderr (snd (main args listing w))
  = stderr w
    ++ diagnostics (enumerate listing)
         (outcomes (overwrite args) (enumerate listing) (start, w)).
Proof.
  unfold main, start. destruct (enumerate listing) as [|d l] eqn:E.
  - simpl. by rewrite app_nil_r.
  - pose proof (run_streams (overwrite args) (d :: l) (mkTally 0 0 0, w)) as [_ H].
    by destruct (run (overwrite args) (d :: l) (mkTally 0 0 0, w)) as [t w'].
Qed.

(** *** Where an exception of [convert_one] comes from *)

Lemma odt_to_text_raise (doc : Path) (e : exn) :
  odt_to_text doc = Raise e <->
  file doc = Unreadable e \/ file doc = Archive (Malformed e).
Proof.
  unfold odt_to_text, _read_content_xml.
  destruct (file doc) as [e'|[e'|root]]; simpl.
  - split; [intros [= ->]; by left|]. by intros [[= ->]|[=]].
  - split; [intros [= ->]; by right|]. by intros [[=]|[= ->]].
  - destruct (find _ root) as [body|]; [destruct (find _ body)|];
      (split; [done|by intros [[=]|[=]]]).
Qed.

Lemma ods_to_text_raise (doc : Path) (e : exn) :
  ods_to_text doc = Raise e <->
  file doc = Unreadable e \/ file doc = Archive (Malformed e).
Proof.
  unfold ods_to_text, _read_content_xml.
  destruct (file doc) as [e'|[e'|root]]; simpl.
  - split; [intros [= ->]; by left|]. by intros [[= ->]|[=]].
  - split; [intros [= ->]; by right|]. by intros [[=]|[= ->]].
  - destruct (find _ root) as [body|]; [destruct (find _ body)|];
      (split; [done|by intros [[=]|[=]]]).
Qed.

Lemma convert_one_raise (doc : Path) (e : exn) :
  convert_one doc = Raise e <->
  ((lower (suffix doc) = py ".odt" \/ lower (suffix doc) = py ".ods")
   /\ (file doc = Unreadable e \/ file doc = Archive (Malformed e)))
  \/ (lower (suffix doc) ≠ py ".odt" /\ lower (suffix doc) ≠ py ".ods"
      /\ e = Exception (py "Unsupported file type: " ++ name doc)).
Proof.
  unfold convert_one. repeat case_bool_decide.
  - rewrite odt_to_text_raise. intuition congruence.
  - rewrite ods_to_text_raise. intuition congruence.
  - split; [intros [= <-]; by right|]. intros [[[?|?] _]|(_ & _ & ->)]; done.
Qed.

(** *** Names, stems and suffixes *)

Lemma rfind_dot_app (s t : pystr) (i : nat) :
  rfind_dot t = Some i -> rfind_dot (s ++ t) = Some (length s + i)%nat.
Proof.
  intros Ht. induction s as [|c s IH]; simpl; [done|]. by rewrite IH.
Qed.

Lemma split_extension (s ext : pystr) :
  s ≠ [] -> rfind_dot ext = Some 0%nat -> (2 <= length ext)%nat ->
  split_index (s ++ ext) = Some (length s).
Proof.
  intros Hs Hdot Hlen. unfold split_index.
  rewrite (rfind_dot_app s ext 0 Hdot), Nat.add_0_r, length_app.
  destruct s; [done|]. simpl length.
  destruct (Nat.ltb_spec 0 (S (length s))); [|lia].
  destruct (Nat.ltb_spec (S (length s)) (S (length s) + length ext - 1)); [done|lia].
Qed.

Lemma stem_extension (s ext : pystr) (f : container) :
  s ≠ [] -> rfind_dot ext = Some 0%nat -> (2 <= length ext)%nat ->
  stem (mkPath (s ++ ext) f) = s /\ suffix (mkPath (s ++ ext) f) = ext.
Proof.
  intros Hs Hdot Hlen. unfold stem, suffix. simpl.
  rewrite split_extension by done.
  by rewrite take_app_length, drop_app_length.
Qed.

End Batch.

Section BatchClaims.

Context {rt : Runtime}.

(** C3. When the conversion of a file that is not skipped raises, in
    [convert_one] (an unreadable archive, malformed markup, an unsupported
    type) or in [write_text], the loop counts the file as failed, writes
    one line with the file name and the message of the exception to the
    error stream, and goes on with the files that follow. Every file of
    the list gets an outcome, the three counters grow by the number of
    files, and the error stream grows by one line per failed file. *)
Theorem failure_isolated (ov : bool) (earlier later : list Path) (doc : Path)
    (st : tally * world) (e : exn) :
  skips ov doc (snd (run ov earlier st)) = false ->
  (convert_one doc = Raise e
   \/ exists text,
        convert_one doc = Ok text
        /\ snd (write_text (out_path doc) text (snd (run ov earlier st))) = Raise e) ->
  outcome_of ov (snd (run ov earlier st)) doc = Failed e
  /\ run ov (earlier ++ doc :: later) st
     = run ov later
         (mkTally (converted (fst (run ov earlier st)))
                  (skipped (fst (run ov earlier st)))
                  (S (failed (fst (run ov earlier st)))),
          print_err (py "ERROR: " ++ name doc ++ py ": " ++ message e)
            (fst (attempt doc (snd (run ov earlier st)))))
  /\ stderr (print_err (py "ERROR: " ++ name doc ++ py ": " ++ message e)
               (fst (attempt doc (snd (run ov earlier st)))))
     = stderr (snd (run ov earlier st))
       ++ [py "ERROR: " ++ name doc ++ py ": " ++ message e]
  /\ length (outcomes ov (earlier ++ doc :: later) st) = length (earlier ++ doc :: later)
  /\ (converted (fst (run ov (earlier ++ doc :: later) st))
      + skipped (fst (run ov (earlier ++ doc :: later) st))
      + failed (fst (run ov (earlier ++ doc :: later) st))
      = converted (fst st) + skipped (fst st) + failed (fst st)
        + length (earlier ++ doc :: later))%nat
  /\ failed (fst (run ov (earlier ++ doc :: later) st))
     = (failed (fst st)
        + length (filter is_failed (outcomes ov (earlier ++ doc :: later) st)))%nat
  /\ stderr (snd (run ov (earlier ++ doc :: later) st))
     = stderr (snd st)
       ++ diagnostics (earlier ++ doc :: later) (outcomes ov (earlier ++ doc :: later) st)
  /\ (forall args listing w,
        stderr (snd (main args listing w))
        = stderr w
          ++ diagnostics (enumerate listing)
               (outcomes (overwrite args) (enumerate listing) (start, w)))
  /\ (forall d e',
        convert_one d = Raise e' <->
        ((lower (suffix d) = py ".odt" \/ lower (suffix d) = py ".ods")
         /\ (file d = Unreadable e' \/ file d = Archive (Malformed e')))
        \/ (lower (suffix d) ≠ py ".odt" /\ lower (suffix d) ≠ py ".ods"
            /\ e' = Exception (py "Unsupported file type: " ++ name d))).
Proof.
  intros Hskip Hraise.
  assert (outcome_of ov (snd (run ov earlier st)) doc = Failed e) as Ho
    by (by apply outcome_failed).
  split; [done|]. split.
  { rewrite run_app, run_cons.
    destruct (run ov earlier st) as [t1 w1]. simpl in Ho.
    by rewrite (process_failed _ _ _ _ _ Ho). }
  split.
  { simpl. by destruct (attempt_streams doc (snd (run ov earlier st))) as [_ ->]. }
  split; [apply length_outcomes|]. split; [apply run_total|].
  split; [apply run_failed|]. split; [apply run_streams|].
  split; [apply main_streams|].
  apply convert_one_raise.
Qed.

(** C4. [main] returns 0 or 2: it returns 2 exactly when some enumerated
    file failed, and 0 exactly when none did, which includes the case of
    an input directory without a candidate file, where it prints the
    notice and returns 0. *)
Theorem exit_status (args : Args) (listing : list Path) (w : world) :
  (fst (main args listing w) = 0%Z \/ fst (main args listing w) = 2%Z)
  /\ (fst (main args listing w) = 2%Z <->
      exists e, Failed e ∈ outcomes (overwrite args) (enumerate listing) (start, w))
  /\ (fst (main args listing w) = 0%Z <->
      forall e, Failed e ∉ outcomes (overwrite args) (enumerate listing) (start, w))
  /\ (enumerate listing = [] ->
      main args listing w
      = (0%Z, print (py "No .odt/.ods files found in: " ++ in_dir args) w))
  /\ ((forall p, p ∈ listing ->
                 ~ py ".odt" `suffix_of` name p /\ ~ py ".ods" `suffix_of` name p) ->
      enumerate listing = []).
Proof.
  pose proof (failed_in_outcomes (outcomes (overwrite args) (enumerate listing) (start, w)))
    as Hin.
  pose proof (run_failed (overwrite args) (enumerate listing) (start, w)) as Hf.
  simpl in Hf. rewrite main_status. fold start.
  destruct (Nat.eqb_spec
              (failed (fst (run (overwrite args) (enumerate listing) (start, w)))) 0)
    as [H0|H0].
  - split; [by left|]. split; [|split; [|split]].
    + split; [done|]. intros He%Hin. lia.
    + split; [|done]. intros _ e He. assert (exists e, Failed e ∈
        outcomes (overwrite args) (enumerate listing) (start, w)) as He'%Hin by eauto. lia.
    + intros E. unfold main. by rewrite E.
    + apply enumerate_none.
  - split; [by right|]. split; [|split; [|split]].
    + split; [|done]. intros _. apply Hin. lia.
    + split; [done|]. intros Hno. exfalso.
      assert (exists e, Failed e ∈
        outcomes (overwrite args) (enumerate listing) (start, w)) as [e He]
        by (apply Hin; lia).
      by apply (Hno e).
    + intros E. unfold main. by rewrite E.
    + apply enumerate_none.
Qed.

(** C5. Without the overwrite flag, a file whose output path exists is
    counted as skipped and nothing else changes: no conversion, no write,
    no message. A run without the flag leaves every existing output file
    as it is, and so does [main]. In a second run over the same files,
    started on the output directory the first run left, every file that
    the first run converted or skipped is skipped and its output is
    unchanged; when the first run had no failure, the second run skips
    every file and changes nothing. *)
Theorem existing_output_skipped (doc : Path) (t : tally) (w : world) :
  is_Some (out_files w !! out_path doc) ->
  process false (t, w) doc = (mkTally (converted t) (S (skipped t)) (failed t), w)
  /\ outcome_of false w doc = Skipped
  /\ (forall files st p c,
        out_files (snd st) !! p = Some c ->
        out_files (snd (run false files st)) !! p = Some c)
  /\ (forall args listing w0 p c,
        overwrite args = false ->
        out_files w0 !! p = Some c ->
        out_files (snd (main args listing w0)) !! p = Some c)
  /\ (forall files st st' i d o,
        files !! i = Some d ->
        outcomes false files st !! i = Some o ->
        is_failed o = false ->
        out_files (snd st') = out_files (snd (run false files st)) ->
        outcomes false files st' !! i = Some Skipped
        /\ is_Some (out_files (snd (run false files st)) !! out_path d)
        /\ out_files (snd (run false files st')) !! out_path d
           = out_files (snd (run false files st)) !! out_path d)
  /\ (forall files st t',
        failed (fst (run false files st)) = failed (fst st) ->
        run false files (t', snd (run false files st))
        = (mkTally (converted t') (skipped t' + length files) (failed t'),
           snd (run false files st))).
Proof.
  intros Hex.
  assert (outcome_of false w doc = Skipped) as Ho
    by (by apply outcome_skipped, skips_exists).
  split; [by apply process_skipped|]. split; [done|].
  split; [apply run_keeps_existing|]. split.
  { intros args listing w0 p c Hov Hp. rewrite main_files, Hov.
    by apply run_keeps_existing. }
  split.
  - intros files st st' i d o Hi Hoi Hnf Hsame.
    pose proof (outcomes_not_failed_exists false files st i d o Hi Hoi Hnf) as Hd.
    split; [|split; [done|]].
    + apply (outcomes_lookup_skip files st' i d); [done|]. by rewrite Hsame.
    + destruct Hd as [c Hc]. rewrite Hc. apply run_keeps_existing. by rewrite Hsame.
  - intros files st t' Hnone. apply run_all_skipped.
    intros d Hd. by apply run_no_failure_all_exist.
Qed.

(** C9, amended. A conversion that fails before the write, in the archive
    read, the parse or the dispatch on the type, leaves the output
    directory as it was, and so does a write that fails to open the file.
    A write that fails after the file was opened leaves at the output path
    the part of the text written so far, in place of what the path held
    before; no other output file is touched. *)
Theorem failed_conversion_output (ov : bool) (doc : Path) (st : tally * world) (e : exn) :
  outcome_of ov (snd st) doc = Failed e ->
  (forall p, p ≠ out_path doc ->
             out_files (snd (process ov st doc)) !! p = out_files (snd st) !! p)
  /\ (convert_one doc = Raise e ->
      out_files (snd (process ov st doc)) = out_files (snd st))
  /\ (forall text,
        convert_one doc = Ok text ->
        match pending (snd st) with
        | OpenFails e' :: _ =>
            e' = e /\ out_files (snd (process ov st doc)) = out_files (snd st)
        | WriteFails n e' :: _ =>
            e' = e
            /\ out_files (snd (process ov st doc))
               = <[out_path doc := take n text]> (out_files (snd st))
        | _ => False
        end).
Proof.
  intros Ho. split; [intros p Hp; by apply process_other_path|].
  destruct st as [t w]. cbn [snd] in *.
  rewrite (process_failed _ _ _ _ _ Ho). cbn [snd].
  unfold outcome_of in Ho. destruct (skips ov doc w); [done|].
  unfold attempt in *. split.
  - by intros ->.
  - intros text Htext. rewrite Htext in *. unfold write_text in *.
    destruct (pending w) as [|[|e'|n e'] rest]; simpl in *; try done;
      injection Ho as ->; done.
Qed.

(** C10, amended. The names [s.odt] and [s.ods] with the same non-empty
    [s] both map to the output path [s.txt]. For two files with the same
    output path, once the output exists after the first was processed (it
    does when the first was converted): without the overwrite flag the
    second is counted as skipped, with nothing converted or written,
    whatever files were processed in between. With the flag the second is
    never skipped: it is converted and its text replaces what the path held
    (so it is when its conversion and write succeed), or it is counted as
    failed, and when the failure is in its conversion the output path keeps
    what it held. *)
Theorem same_stem_collision (s : pystr) (f1 f2 : container) :
  s ≠ [] ->
  out_path (mkPath (s ++ py ".odt") f1) = s ++ py ".txt"
  /\ out_path (mkPath (s ++ py ".ods") f2) = s ++ py ".txt"
  /\ (forall ov first second st,
        out_path first = out_path second ->
        outcome_of ov (snd st) first = Converted ->
        is_Some (out_files (snd (process ov st first)) !! out_path second))
  /\ (forall first second between st,
        out_path first = out_path second ->
        is_Some (out_files (snd (process false st first)) !! out_path second) ->
        outcome_of false (snd (run false between (process false st first))) second = Skipped
        /\ process false (run false between (process false st first)) second
           = (mkTally (converted (fst (run false between (process false st first))))
                      (S (skipped (fst (run false between (process false st first)))))
                      (failed (fst (run false between (process false st first)))),
              snd (run false between (process false st first))))
  /\ (forall first second between st text,
        out_path first = out_path second ->
        convert_one second = Ok text ->
        write_succeeds (snd (run true between (process true st first))) = true ->
        outcome_of true (snd (run true between (process true st first))) second = Converted
        /\ out_files (snd (process true (run true between (process true st first)) second))
           = <[out_path first := text]>
               (out_files (snd (run true between (process true st first)))))
  /\ (forall first second between st,
        out_path first = out_path second ->
        match outcome_of true (snd (run true between (process true st first))) second with
        | Skipped => False
        | Converted =>
            exists text,
              convert_one second = Ok text
              /\ out_files
                   (snd (process true (run true between (process true st first)) second))
                 = <[out_path first := text]>
                     (out_files (snd (run true between (process true st first))))
        | Failed e =>
            failed (fst (process true (run true between (process true st first)) second))
            = S (failed (fst (run true between (process true st first))))
            /\ (convert_one second = Raise e ->
                out_files
                  (snd (process true (run true between (process true st first)) second))
                = out_files (snd (run true between (process true st first))))
        end).
Proof.
  intros Hs. unfold out_path.
  destruct (stem_extension s (py ".odt") f1 Hs) as [-> _]; [done|simpl; lia|].
  destruct (stem_extension s (py ".ods") f2 Hs) as [-> _]; [done|simpl; lia|].
  split; [done|]. split; [done|]. split; [|split; [|split]].
  - intros ov first second st Hsame Hconv. fold (out_path first) (out_path second) in *.
    rewrite <- Hsame. apply process_not_failed_exists. by rewrite Hconv.
  - intros first second between st Hsame Hex.
    fold (out_path first) (out_path second) in *.
    assert (outcome_of false (snd (run false between (process false st first))) second
            = Skipped) as Ho.
    { apply outcome_skipped, skips_exists. by apply run_exists_mono. }
    split; [done|].
    destruct (run false between (process false st first)) as [t2 w2].
    by apply process_skipped.
  - intros first second between st text Hsame Hconv Hpend.
    fold (out_path first) (out_path second) in *.
    destruct (run true between (process true st first)) as [t2 w2]. cbn [snd] in *.
    assert (attempt second w2
            = (mkWorld (<[out_path second := text]> (out_files w2)) (tl (pending w2))
                 (stdout w2) (stderr w2), Ok ())) as Ha.
    { unfold attempt. rewrite Hconv. unfold write_text. unfold write_succeeds in Hpend.
      by destruct (pending w2) as [|[|e|n e] rest]. }
    assert (outcome_of true w2 second = Converted) as Ho.
    { unfold outcome_of. by rewrite skips_overwrite, Ha. }
    split; [done|]. rewrite (process_converted _ _ _ _ Ho), Ha. simpl. by rewrite Hsame.
  - intros first second between st Hsame. fold (out_path first) (out_path second) in *.
    destruct (run true between (process true st first)) as [t2 w2].
    cbn [fst snd]. destruct (outcome_of true w2 second) eqn:Ho.
    + rewrite (process_converted _ _ _ _ Ho). cbn [snd].
      unfold outcome_of in Ho. rewrite skips_overwrite in Ho.
      destruct (attempt second w2) as [w' [u|e]] eqn:Ea; [|done].
      apply attempt_ok in Ea as (text & Hc & Hw & _). exists text. split; [done|].
      simpl. by rewrite Hw, Hsame.
    + apply outcome_skipped in Ho. by rewrite skips_overwrite in Ho.
    + rewrite (process_failed _ _ _ _ _ Ho). cbn [fst snd]. split; [done|].
      intros Hc. simpl. unfold attempt. by rewrite Hc.
Qed.

End BatchClaims.

(** ** The properties on the sample documents and directories *)

Lemma bodyless_input_is_empty_witness :
  file bodyless_odt = Archive (WellFormed bodyless_root)
  /\ find (qname NS_office "body") bodyless_root = None
  /\ odt_to_text bodyless_odt = Ok []
  /\ ods_to_text bodyless_odt = Ok [].
Proof.
  split; [reflexivity|]. split; [vm_compute; reflexivity|].
  apply (bodyless_input_is_empty bodyless_odt bodyless_root); vm_compute; reflexivity.
Defined.

Lemma failure_isolated_witness :
  skips false broken_ods (snd (run false [hello_odt] (start, empty_world))) = false
  /\ convert_one broken_ods = Raise not_a_zip
  /\ outcome_of false (snd (run false [hello_odt] (start, empty_world))) broken_ods
     = Failed not_a_zip.
Proof.
  split; [vm_compute; reflexivity|]. split; [vm_compute; reflexivity|].
  apply (failure_isolated false [hello_odt] [data_ods] broken_ods (start, empty_world)
           not_a_zip).
  - vm_compute; reflexivity.
  - left. vm_compute; reflexivity.
Defined.

Lemma exit_status_witness :
  enumerate [] = []
  /\ main sample_args [] empty_world
     = (0%Z, print (py "No .odt/.ods files found in: " ++ in_dir sample_args) empty_world).
Proof.
  split; [reflexivity|].
  apply (exit_status sample_args [] empty_world). reflexivity.
Defined.

Lemma existing_output_skipped_witness :
  is_Some (out_files full_disk_world !! out_path hello_odt)
  /\ process false (start, full_disk_world) hello_odt
     = (mkTally (converted start) (S (skipped start)) (failed start), full_disk_world).
Proof.
  assert (is_Some (out_files full_disk_world !! out_path hello_odt)) as H.
  { exists (py "old text"). vm_compute. reflexivity. }
  split; [exact H|].
  apply (existing_output_skipped hello_odt start full_disk_world H).
Defined.

Lemma failed_conversion_output_witness :
  outcome_of true (snd (start, full_disk_world)) hello_odt = Failed disk_full
  /\ (forall p, p ≠ out_path hello_odt ->
                out_files (snd (process true (start, full_disk_world) hello_odt)) !! p
                = out_files (snd (start, full_disk_world)) !! p).
Proof.
  split; [vm_compute; reflexivity|].
  apply (failed_conversion_output true hello_odt (start, full_disk_world) disk_full).
  vm_compute; reflexivity.
Defined.

(** C9 as stated fails when the disk runs full during the write: the
    output path held "old text", the conversion gives "Hello\n\nWorld\n",
    and after the failed write the path holds "Hel". *)
Lemma failed_conversion_output_counterexample :
  outcome_of true full_disk_world hello_odt = Failed disk_full
  /\ out_files full_disk_world !! out_path hello_odt = Some (py "old text")
  /\ convert_one hello_odt = Ok (py "Hello" ++ nl ++ nl ++ py "World" ++ nl)
  /\ out_files (snd (process true (start, full_disk_world) hello_odt)) !! out_path hello_odt
     = Some (py "Hel")
  /\ ~ write_all_or_nothing true hello_odt (start, full_disk_world).
Proof.
  split; [vm_compute; reflexivity|]. split; [vm_compute; reflexivity|].
  split; [vm_compute; reflexivity|]. split; [vm_compute; reflexivity|].
  intros H. destruct (H disk_full) as [E|(text & Ht & E)].
  - vm_compute; reflexivity.
  - vm_compute in E. discriminate E.
  - vm_compute in Ht. injection Ht as <-. vm_compute in E. discriminate E.
Qed.

(** C10 as stated fails when the second of the two files cannot be
    converted and the overwrite flag is set: [report.ods] is converted,
    [report.odt] is no archive and is counted as failed, so the second file
    neither overwrites the output nor is skipped, and [report.txt] keeps the
    text of the spreadsheet. *)
Lemma same_stem_collision_counterexample :
  name <$> enumerate [unreadable_report_odt; report_ods] = [py "report.ods"; py "report.odt"]
  /\ out_path report_ods = out_path unreadable_report_odt
  /\ outcomes true [report_ods; unreadable_report_odt] (start, empty_world)
     = [Converted; Failed not_a_zip]
  /\ out_files (snd (run true [report_ods; unreadable_report_odt] (start, empty_world)))
       !! py "report.txt"
     = Some (py "## Data" ++ nl ++ py "A" ++ tab ++ py "B" ++ nl
             ++ py "A" ++ tab ++ py "B" ++ nl)
  /\ ~ second_overwrites_or_is_skipped true report_ods unreadable_report_odt
         (start, empty_world).
Proof.
  split; [vm_compute; reflexivity|]. split; [vm_compute; reflexivity|].
  split; [vm_compute; reflexivity|]. split; [vm_compute; reflexivity|].
  intros [H|(text & H & _)].
  - vm_compute in H. discriminate H.
  - vm_compute in H. discriminate H.
Qed.

Lemma same_stem_collision_witness :
  py "report" ≠ []
  /\ out_path (mkPath (py "report" ++ py ".odt") (file report_odt)) = py "report" ++ py ".txt"
  /\ out_path (mkPath (py "report" ++ py ".ods") (file report_ods)) = py "report" ++ py ".txt".
Proof.
  assert (py "report" ≠ []) as H by (vm_compute; discriminate).
  split; [exact H|].
  pose proof (same_stem_collision (py "report") (file report_odt) (file report_ods) H)
    as (H1 & H2 & _).
  split; [exact H1|exact H2].
Defined.

(** The batch of the specification: one valid and one corrupt file. *)
Example one_valid_one_corrupt :
  fst (main sample_args [hello_odt; broken_ods] empty_world) = 2%Z
  /\ stdout (snd (main sample_args [hello_odt; broken_ods] empty_world))
     = [py "Done. converted=1 skipped=0 failed=1 -> /out"]
  /\ stderr (snd (main sample_args [hello_odt; broken_ods] empty_world))
     = [py "ERROR: broken.ods: File is not a zip file"]
  /\ out_files (snd (main sample_args [hello_odt; broken_ods] empty_world))
     = {[ py "hello.txt" := py "Hello" ++ nl ++ nl ++ py "World" ++ nl ]}.
Proof. repeat split; vm_compute; reflexivity. Qed.

(** [report.ods] sorts before [report.odt]: the spreadsheet is converted,
    the text document is skipped, and a second run skips both. *)
Example report_collision :
  name <$> enumerate [report_odt; report_ods] = [py "report.ods"; py "report.odt"]
  /\ stdout (snd (main sample_args [report_odt; report_ods] empty_world))
     = [py "Done. converted=1 skipped=1 failed=0 -> /out"]
  /\ out_files (snd (main sample_args [report_odt; report_ods] empty_world))
     = {[ py "report.txt" :=
            py "## Data" ++ nl ++ py "A" ++ tab ++ py "B" ++ nl
            ++ py "A" ++ tab ++ py "B" ++ nl ]}
  /\ stdout (snd (main sample_args [report_odt; report_ods]
                    (snd (main sample_args [report_odt; report_ods] empty_world))))
     = [py "Done. converted=1 skipped=1 failed=0 -> /out";
        py "Done. converted=0 skipped=2 failed=0 -> /out"].
Proof. repeat split; vm_compute; reflexivity. Qed.

(** A text document with a heading, a nested section, a paragraph of white
    space, a paragraph with an inline span, and a line that returns after
    another one: the lines come out in document order, the blank paragraph
    is dropped, and the second "Intro" is kept. *)
Example nested_text :
  extract_lines (node (qname NS_office "text") nested_paragraphs)
  = [py "Title"; py "Intro"; py "bold move"; py "Intro"]
  /\ odt_to_text nested_odt
     = Ok (py "Title" ++ nl ++ nl ++ py "Intro" ++ nl ++ nl ++ py "bold move"
           ++ nl ++ nl ++ py "Intro" ++ nl).
Proof. split; vm_compute; reflexivity. Qed.

(** * Further properties *)

(** ** The order of the candidates *)

Lemma str_le_refl (a : pystr) : str_le a a = true.
Proof.
  induction a as [|x a IH]; [done|]. simpl. by rewrite N.ltb_irrefl.
Qed.

Lemma str_le_total (a b : pystr) : str_le a b = true \/ str_le b a = true.
Proof.
  revert b. induction a as [|x a IH]; intros [|y b]; simpl; auto.
  destruct (N.ltb_spec x y), (N.ltb_spec y x); auto; lia.
Qed.

Lemma str_le_trans (a b c : pystr) :
  str_le a b = true -> str_le b c = true -> str_le a c = true.
Proof.
  revert b c. induction a as [|x a IH]; intros [|y b] [|z c]; simpl; try done.
  destruct (N.ltb_spec x y), (N.ltb_spec y x), (N.ltb_spec y z), (N.ltb_spec z y),
    (N.ltb_spec x z), (N.ltb_spec z x); try done; try lia.
  apply IH.
Qed.

Lemma str_le_antisym (a b : pystr) :
  str_le a b = true -> str_le b a = true -> a = b.
Proof.
  revert b. induction a as [|x a IH]; intros [|y b]; simpl; try done.
  destruct (N.ltb_spec x y), (N.ltb_spec y x); try done; try lia.
  intros Hab Hba. f_equal; [lia|by apply IH].
Qed.

Section SortedFacts.

Context {A : Type} (key : A -> pystr).

Lemma insert_sorted_perm (x : A) (l : list A) : insert_sorted key x l ≡ₚ x :: l.
Proof.
  induction l as [|y l IH]; simpl; [done|].
  destruct (str_le (key x) (key y)); [done|].
  rewrite IH. apply Permutation_swap.
Qed.

Lemma sorted_perm (l : list A) : sorted key l ≡ₚ l.
Proof.
  induction l as [|x l IH]; simpl; [done|].
  by rewrite insert_sorted_perm, IH.
Qed.

Lemma insert_sorted_ordered (x : A) (l : list A) :
  StronglySorted (key_le key) l -> StronglySorted (key_le key) (insert_sorted key x l).
Proof.
  induction l as [|y l IH]; simpl; intros Hl.
  - by repeat constructor.
  - apply StronglySorted_cons in Hl as [Hy Hl].
    destruct (str_le (key x) (key y)) eqn:E.
    + apply StronglySorted_cons. split; [|by apply StronglySorted_cons].
      constructor; [done|]. eapply Forall_impl; [exact Hy|].
      intros z Hz. by eapply str_le_trans.
    + apply StronglySorted_cons. split; [|by apply IH].
      rewrite insert_sorted_perm. constructor; [|done].
      destruct (str_le_total (key x) (key y)); [congruence|done].
Qed.

Lemma sorted_ordered (l : list A) : StronglySorted (key_le key) (sorted key l).
Proof.
  induction l as [|x l IH]; simpl; [constructor|]. by apply insert_sorted_ordered.
Qed.

(** The sort is stable: entries with the same key keep their order. *)
Lemma insert_sorted_filter (x : A) (l : list A) (k : pystr) :
  StronglySorted (key_le key) l ->
  filter (fun a => key a = k) (insert_sorted key x l)
  = filter (fun a => key a = k) (x :: l).
Proof.
  induction l as [|y l IH]; simpl; intros Hl; [done|].
  apply StronglySorted_cons in Hl as [Hy Hl].
  destruct (str_le (key x) (key y)) eqn:E; [done|].
  rewrite (filter_cons _ y), IH by done. rewrite !filter_cons.
  destruct (decide (key x = k)) as [Hx|Hx]; [|done].
  destruct (decide (key y = k)) as [Hy'|Hy']; [|done].
  rewrite Hx, Hy', str_le_refl in E. done.
Qed.

Lemma sorted_stable (l : list A) (k : pystr) :
  filter (fun a => key a = k) (sorted key l) = filter (fun a => key a = k) l.
Proof.
  induction l as [|x l IH]; simpl; [done|].
  rewrite insert_sorted_filter by apply sorted_ordered.
  by rewrite !filter_cons, IH.
Qed.

End SortedFacts.

Lemma odt_not_ods (nm : pystr) :
  py ".odt" `suffix_of` nm -> ~ py ".ods" `suffix_of` nm.
Proof.
  intros [k ->] [k' E]. apply app_inj_2 in E as [_ E]; [|done]. discriminate E.
Qed.

Lemma glob_candidates (listing : list Path) :
  glob ".odt" listing ++ glob ".ods" listing ≡ₚ filter candidate listing.
Proof.
  unfold glob. induction listing as [|p l IH]; [done|].
  rewrite !filter_cons.
  destruct (decide (py ".odt" `suffix_of` name p)) as [Ht|Ht].
  - pose proof (odt_not_ods _ Ht) as Hs.
    rewrite decide_False by done. rewrite decide_True by (by left).
    simpl. by rewrite IH.
  - destruct (decide (py ".ods" `suffix_of` name p)) as [Hs|Hs].
    + rewrite decide_True by (by right).
      rewrite <- Permutation_middle. by rewrite IH.
    + rewrite decide_False by (by intros [?|?]). done.
Qed.

Section EnumerateFacts.

Context {rt : Runtime}.

(** X1. The files [main] works on are exactly the entries of the input
    directory whose name ends with [.odt] or [.ods]: none is lost, none is
    added, none is taken twice. *)
Theorem enumerate_candidates (listing : list Path) :
  enumerate listing ≡ₚ filter candidate listing
  /\ (forall p, p ∈ enumerate listing <-> p ∈ listing /\ candidate p)
  /\ (length (enumerate listing) <= length listing)%nat.
Proof.
  assert (enumerate listing ≡ₚ filter candidate listing) as H.
  { unfold enumerate. by rewrite sorted_perm, glob_candidates. }
  split; [done|]. split.
  - intros p. rewrite H, list_elem_of_filter. tauto.
  - rewrite H. apply length_filter.
Qed.

(** X2. The files are processed in the order of their lower-cased names,
    compared code point by code point, and the sort is stable: files whose
    lower-cased names are equal stay in the order text documents first, then
    spreadsheets, each group in the order of the directory listing. *)
Theorem enumerate_ordered (listing : list Path) :
  StronglySorted (key_le (fun p => lower (name p))) (enumerate listing)
  /\ (forall k,
        filter (fun p => lower (name p) = k) (enumerate listing)
        = filter (fun p => lower (name p) = k) (glob ".odt" listing)
          ++ filter (fun p => lower (name p) = k) (glob ".ods" listing)).
Proof.
  split; [apply sorted_ordered|].
  intros k. unfold enumerate. by rewrite sorted_stable, filter_app.
Qed.

End EnumerateFacts.

(** ** The extractors *)

Lemma lstrip_app_fixed (a b : pystr) :
  b ≠ [] -> lstrip b = b -> lstrip (a ++ b) = lstrip a ++ b.
Proof.
  intros Hne Hb. induction a as [|c a IH]; simpl; [done|].
  by destruct (isspace c).
Qed.

Lemma rstrip_app_fixed_l (h x : pystr) :
  h ≠ [] -> rstrip h = h -> rstrip (h ++ x) = h ++ rstrip x.
Proof.
  intros Hne Hh. unfold rstrip in *.
  assert (lstrip (reverse h) = reverse h) as Hr.
  { rewrite <- Hh at 2. by rewrite reverse_involutive. }
  rewrite reverse_app, lstrip_app_fixed; [| |done].
  - by rewrite reverse_app, reverse_involutive.
  - intros E. apply Hne. by rewrite <- (reverse_involutive h), E.
Qed.

Lemma length_concat_sum {A} (ls : list (list A)) :
  length (concat ls) = sum_list (length <$> ls).
Proof.
  induction ls as [|l ls IH]; simpl; [done|]. by rewrite length_app, IH.
Qed.

Lemma length_omap_le {A B} (f : A -> option B) (l : list A) :
  (length (omap f l) <= length l)%nat.
Proof.
  induction l as [|x l IH]; [done|]. cbn. destruct (f x); simpl; lia.
Qed.

Lemma dedupe_idemp (l : list pystr) : dedupe (dedupe l) = dedupe l.
Proof. apply dedupe_fixed, dedupe_no_adjacent_dup. Qed.

Lemma head_dedupe (l : list pystr) : head (dedupe l) = head l.
Proof.
  induction l as [|x l IH] using rev_ind; [done|].
  rewrite dedupe_snoc. case_bool_decide as Hx.
  - rewrite IH. apply last_Some in Hx as [l' ->]. by destruct l'.
  - destruct l as [|y l]; [done|].
    destruct (dedupe (y :: l)) as [|z d] eqn:E; [|exact IH].
    pose proof (last_dedupe (y :: l)) as Hl. rewrite E in Hl. simpl in Hl.
    symmetry in Hl. by apply last_None in Hl.
Qed.

(** X3. De-duplicating twice changes nothing more; the cleaned lines are
    never more than the extracted ones, and they begin and end with the same
    line. *)
Theorem dedupe_idempotent (l : list pystr) :
  dedupe (dedupe l) = dedupe l
  /\ (length (dedupe l) <= length l)%nat
  /\ head (dedupe l) = head l
  /\ last (dedupe l) = last l.
Proof.
  split; [apply dedupe_idemp|]. split; [apply sublist_length, dedupe_sublist|].
  split; [apply head_dedupe|apply last_dedupe].
Qed.

(** X4. Every line taken from the text section is non-empty and has no
    white space at either end, and a node gives at most one line: a
    paragraph or heading of white space only gives none. *)
Theorem extracted_lines_trimmed (text_body : Element) :
  Forall (fun s => s ≠ [] /\ lstrip s = s /\ rstrip s = s) (extract_lines text_body)
  /\ (length (extract_lines text_body) <= length (iter text_body))%nat
  /\ (forall el, strip (concat (itertext el)) = [] -> line_of el = None).
Proof.
  split; [|split].
  - eapply Forall_impl; [apply extract_lines_tidy|]. intros s [[H1 H2] H3]. done.
  - rewrite extract_lines_omap. apply length_omap_le.
  - intros el H. unfold line_of. rewrite H. by destruct (_ || _).
Qed.

Section ExtractorFacts.

Context {rt : Runtime}.

(** X5. Whenever an extractor returns a text, the text is empty or ends
    with a newline that has no white space before it. *)
Theorem extractor_output_shape (doc : Path) (out : pystr) :
  (odt_to_text doc = Ok out ->
   out = [] \/ exists t, out = t ++ nl /\ lstrip t = t /\ rstrip t = t)
  /\ (ods_to_text doc = Ok out ->
      out = [] \/ exists t, out = t ++ nl /\ rstrip t = t).
Proof.
  unfold odt_to_text, ods_to_text, _read_content_xml.
  destruct (file doc) as [e|[e|root]]; simpl; [done..|].
  split.
  - destruct (find _ root) as [body|]; [|intros [= <-]; by left].
    destruct (find _ body) as [tb|]; intros [= <-]; [|by left].
    right. eexists. split; [done|]. apply strip_tidy.
  - destruct (find _ root) as [body|]; [|intros [= <-]; by left].
    destruct (find _ body) as [ss|]; intros [= <-]; [|by left].
    right. eexists. split; [done|]. apply rstrip_idemp.
Qed.

(** X6. The number of lines the spreadsheet extractor emits is, for each
    sheet, two (the heading and the blank line) plus the sum of the
    effective repeat counts of its rows. *)
Theorem sheet_lines_count (spreadsheet : Element) :
  length (sheet_lines spreadsheet)
  = sum_list
      ((fun table =>
          2 + sum_list (row_repeat <$> findall (qname NS_table "table-row") table))%nat
         <$> findall (qname NS_table "table") spreadsheet).
Proof.
  rewrite sheet_lines_spec, length_concat_sum, <- list_fmap_compose. f_equal.
  apply list_fmap_ext. intros _ table _. simpl. unfold table_lines. simpl.
  rewrite length_app, length_concat_sum, <- list_fmap_compose. simpl.
  rewrite Nat.add_1_r. do 3 f_equal.
  apply list_fmap_ext. intros _ r _. simpl. unfold row_lines. apply length_replicate.
Qed.

(** X7. A spreadsheet with at least one sheet never gives an empty text:
    the output begins with the heading mark, and with the whole heading of
    the first sheet when that heading has no trailing white space. *)
Theorem first_heading_kept (doc : Path) (root body spreadsheet table : Element)
    (tables : list Element) :
  file doc = Archive (WellFormed root) ->
  find (qname NS_office "body") root = Some body ->
  find (qname NS_office "spreadsheet") body = Some spreadsheet ->
  findall (qname NS_table "table") spreadsheet = table :: tables ->
  (exists rest, ods_to_text doc = Ok (py "##" ++ rest))
  /\ (rstrip (heading table) = heading table ->
      exists rest, ods_to_text doc = Ok (heading table ++ rest)).
Proof.
  intros Hf Hb Hs Ht.
  assert (exists x, ods_to_text doc = Ok (rstrip (heading table ++ x) ++ nl)) as [x ->].
  { rewrite (ods_to_text_joined doc root body spreadsheet Hf Hb Hs).
    rewrite sheet_lines_spec, Ht, fmap_cons. cbn [concat]. unfold table_lines at 1.
    rewrite <- app_comm_cons. set (more := (concat _ ++ [[]]) ++ concat _).
    assert (more ≠ []) as Hm.
    { subst more. intros E. apply app_eq_nil in E as [E _].
      apply app_eq_nil in E as [_ E]. discriminate E. }
    clearbody more. destruct more as [|y more]; [done|]. by eexists. }
  split.
  - assert (heading table
            = py "##" ++ 32 :: default (py "Sheet") (attrib table !! qname NS_table "name"))
      as -> by done.
    rewrite <- app_assoc, (rstrip_app_fixed_l (py "##")); [|done|by vm_compute].
    rewrite <- app_assoc. by eexists.
  - intros Hh. rewrite rstrip_app_fixed_l; [| |done].
    + rewrite <- app_assoc. by eexists.
    + unfold heading. done.
Qed.

End ExtractorFacts.

(** ** The driver *)

Section DriverFacts.

Context {rt : Runtime}.

Lemma elem_of_enumerate (listing : list Path) (p : Path) :
  p ∈ enumerate listing <-> p ∈ listing /\ candidate p.
Proof.
  unfold enumerate. rewrite sorted_perm, glob_candidates, list_elem_of_filter. tauto.
Qed.

Lemma length_enumerate (listing : list Path) :
  length (enumerate listing) = length (filter candidate listing).
Proof.
  apply Permutation_length. unfold enumerate. by rewrite sorted_perm, glob_candidates.
Qed.

Lemma convert_one_extension (s ext : pystr) (f : container) :
  s ≠ [] -> rfind_dot ext = Some 0%nat -> (2 <= length ext)%nat ->
  convert_one (mkPath (s ++ ext) f)
  = if bool_decide (lower ext = py ".odt") then odt_to_text (mkPath (s ++ ext) f)
    else if bool_decide (lower ext = py ".ods") then ods_to_text (mkPath (s ++ ext) f)
    else Raise (Exception (py "Unsupported file type: " ++ s ++ ext)).
Proof.
  intros Hs Hdot Hlen. unfold convert_one.
  by destruct (stem_extension s ext f Hs Hdot Hlen) as [_ ->].
Qed.

Lemma longer_name (c : N) (s ext : pystr) : (c :: s) ++ ext ≠ ext.
Proof.
  intros E. apply (f_equal length) in E. rewrite length_app in E. simpl in E. lia.
Qed.

(** X8. A candidate whose name is more than the bare extension is handed to
    the extractor of its extension. A candidate named just [.odt] or [.ods]
    has no suffix for pathlib: [convert_one] rejects it as an unsupported
    type, so the error is reachable from the files [main] enumerates. *)
Theorem candidate_dispatch (p : Path) :
  candidate p ->
  (py ".odt" `suffix_of` name p /\ name p ≠ py ".odt" /\ convert_one p = odt_to_text p)
  \/ (py ".ods" `suffix_of` name p /\ name p ≠ py ".ods" /\ convert_one p = ods_to_text p)
  \/ ((name p = py ".odt" \/ name p = py ".ods")
      /\ convert_one p = Raise (Exception (py "Unsupported file type: " ++ name p))).
Proof.
  destruct p as [nm f]. intros [[s E]|[s E]]; cbn [name] in *; subst nm.
  - destruct s as [|c s].
    + right. right. split; [by left|reflexivity].
    + left. split; [by exists (c :: s)|]. split; [apply longer_name|].
      rewrite convert_one_extension; [reflexivity|done|reflexivity|simpl; lia].
  - destruct s as [|c s].
    + right. right. split; [by right|reflexivity].
    + right. left. split; [by exists (c :: s)|]. split; [apply longer_name|].
      rewrite convert_one_extension; [reflexivity|done|reflexivity|simpl; lia].
Qed.

Lemma process_skipped_count (ov : bool) (st : tally * world) (doc : Path) :
  skipped (fst (process ov st doc))
  = (skipped (fst st)
     + (match outcome_of ov (snd st) doc with Skipped => 1 | _ => 0 end))%nat.
Proof.
  destruct st as [t w]. cbn [fst snd].
  destruct (outcome_of ov w doc) eqn:E.
  - rewrite (process_converted _ _ _ _ E). simpl. lia.
  - rewrite (process_skipped _ _ _ _ E). simpl. lia.
  - rewrite (process_failed _ _ _ _ _ E). simpl. lia.
Qed.

Lemma outcome_overwrite (w : world) (doc : Path) : outcome_of true w doc ≠ Skipped.
Proof. intros H%outcome_skipped. by rewrite skips_overwrite in H. Qed.

(** X9. With the overwrite flag no file is skipped: the skipped counter
    stays as it is, and every file is counted as converted or as failed. *)
Theorem overwrite_never_skips (files : list Path) (st : tally * world) :
  skipped (fst (run true files st)) = skipped (fst st)
  /\ (Skipped ∉ outcomes true files st)
  /\ (converted (fst (run true files st)) + failed (fst (run true files st))
      = converted (fst st) + failed (fst st) + length files)%nat.
Proof.
  assert (skipped (fst (run true files st)) = skipped (fst st)
          /\ Skipped ∉ outcomes true files st) as [H1 H2].
  { revert st. induction files as [|doc files IH]; intros st.
    - split; [done|]. apply not_elem_of_nil.
    - rewrite run_cons. destruct (IH (process true st doc)) as [-> Hno].
      rewrite process_skipped_count. pose proof (outcome_overwrite (snd st) doc) as Hne.
      split.
      + destruct (outcome_of true (snd st) doc); [lia|done|lia].
      + simpl. apply not_elem_of_cons. split; [congruence|done]. }
  split; [done|]. split; [done|].
  pose proof (run_total true files st). lia.
Qed.

Lemma run_other_paths (ov : bool) (files : list Path) (st : tally * world) (p : pystr) :
  (forall d, d ∈ files -> p ≠ out_path d) ->
  out_files (snd (run ov files st)) !! p = out_files (snd st) !! p.
Proof.
  revert st. induction files as [|doc files IH]; intros st H; [done|].
  rewrite run_cons, IH by (intros d Hd; apply H; by right).
  apply process_other_path, H. by left.
Qed.

(** X10. [main] changes no output path but the [stem.txt] of a candidate:
    any other path holds after the run what it held before, in particular
    every path that does not end with [.txt]; and no path of the output
    directory is ever removed. *)
Theorem other_paths_untouched (args : Args) (listing : list Path) (w : world) (p : pystr) :
  ((forall d, d ∈ listing -> candidate d -> p ≠ out_path d) ->
   out_files (snd (main args listing w)) !! p = out_files w !! p)
  /\ (~ py ".txt" `suffix_of` p ->
      out_files (snd (main args listing w)) !! p = out_files w !! p)
  /\ (is_Some (out_files w !! p) ->
      is_Some (out_files (snd (main args listing w)) !! p)).
Proof.
  rewrite main_files. split; [|split].
  - intros H. apply run_other_paths. intros d [Hd Hc]%elem_of_enumerate. by apply H.
  - intros H. apply run_other_paths. intros d _ ->. apply H.
    unfold out_path. by exists (stem d).
  - intros H. by apply run_exists_mono.
Qed.

Lemma process_converted_lookup (ov : bool) (st : tally * world) (doc : Path) :
  outcome_of ov (snd st) doc = Converted ->
  exists text,
    convert_one doc = Ok text
    /\ out_files (snd (process ov st doc)) !! out_path doc = Some text.
Proof.
  destruct st as [t w]. cbn [snd]. intros Ho.
  rewrite (process_converted _ _ _ _ Ho). cbn [snd].
  unfold outcome_of in Ho. destruct (skips ov doc w); [done|].
  destruct (attempt doc w) as [w' [u|e]] eqn:Ea; [|done].
  apply attempt_ok in Ea as (text & Hc & Hw & _). exists text. split; [done|].
  simpl. by rewrite Hw, lookup_insert_eq.
Qed.

(** X11. A file counted as converted has the text [convert_one] returned
    at its output path when the run ends, provided no later file can write
    to the same path: the overwrite flag is off, or the output paths of the
    files are pairwise distinct. *)
Theorem converted_text_written (ov : bool) (files : list Path) (st : tally * world)
    (i : nat) (d : Path) :
  ov = false \/ NoDup (out_path <$> files) ->
  files !! i = Some d ->
  outcomes ov files st !! i = Some Converted ->
  exists text,
    convert_one d = Ok text
    /\ out_files (snd (run ov files st)) !! out_path d = Some text.
Proof.
  revert i st. induction files as [|doc files IH]; intros i st Hsafe Hi Ho; [done|].
  rewrite run_cons. destruct i as [|i]; simpl in Hi, Ho.
  - injection Hi as ->. injection Ho as Ho.
    destruct (process_converted_lookup ov st d Ho) as (text & Hc & Hw).
    exists text. split; [done|]. destruct Hsafe as [->|Hnd].
    + by apply run_keeps_existing.
    + rewrite run_other_paths; [done|]. intros d' Hd' E.
      rewrite fmap_cons in Hnd. apply NoDup_cons in Hnd as [Hnot _].
      apply Hnot. rewrite E. by apply list_elem_of_fmap_2.
  - apply (IH i (process ov st doc)); [|done|done]. destruct Hsafe as [->|Hnd]; [by left|right].
    rewrite fmap_cons in Hnd. by apply NoDup_cons in Hnd as [_ ?].
Qed.

(** *** Runs that meet no write fault *)

Lemma process_overwrite_plain (t : tally) (w : world) (doc : Path) :
  pending w = [] ->
  outcome_of true w doc = plain_outcome doc
  /\ pending (snd (process true (t, w) doc)) = []
  /\ out_files (snd (process true (t, w) doc)) = written [doc] (out_files w).
Proof.
  intros Hp. rewrite process_unfold. unfold outcome_of, plain_outcome, written.
  rewrite skips_overwrite. unfold attempt, write_text. rewrite Hp. simpl.
  by destruct (convert_one doc).
Qed.

Lemma run_overwrite_plain (files : list Path) (st : tally * world) :
  pending (snd st) = [] ->
  outcomes true files st = plain_outcome <$> files
  /\ pending (snd (run true files st)) = []
  /\ out_files (snd (run true files st)) = written files (out_files (snd st)).
Proof.
  revert st. induction files as [|doc files IH]; intros [t w] Hp; [done|].
  cbn [snd] in Hp. destruct (process_overwrite_plain t w doc Hp) as (Ho & Hp' & Hw).
  rewrite run_cons. destruct (IH _ Hp') as (IHo & IHp & IHw).
  split; [|split; [done|]].
  - simpl outcomes. rewrite fmap_cons. by f_equal.
  - rewrite IHw, Hw. done.
Qed.

Lemma written_snoc (files : list Path) (d : Path) (m : gmap pystr pystr) :
  written (files ++ [d]) m = written [d] (written files m).
Proof. unfold written. by rewrite fold_left_app. Qed.

Lemma written_absorb (files : list Path) (d : Path) (m : gmap pystr pystr) :
  written [d] (written files (written [d] m)) = written [d] (written files m).
Proof.
  revert m. induction files as [|d' files IH]; intros m.
  - unfold written. simpl. destruct (convert_one d); [|done].
    by rewrite insert_insert_eq.
  - change (written (d' :: files) ?x) with (written files (written [d'] x)).
    destruct (convert_one d) as [v|e] eqn:Ed.
    + destruct (convert_one d') as [v'|e'] eqn:Ed'.
      * destruct (decide (out_path d = out_path d')) as [Heq|Hne].
        -- assert (written [d'] (written [d] m) = written [d'] m) as ->; [|done].
           unfold written. simpl. rewrite Ed, Ed', Heq. by rewrite insert_insert_eq.
        -- assert (written [d'] (written [d] m) = written [d] (written [d'] m)) as ->.
           { unfold written. simpl. rewrite Ed, Ed'. by rewrite insert_insert_ne. }
           apply IH.
      * assert (forall x, written [d'] x = x) as Hid.
        { intros x. unfold written. simpl. by rewrite Ed'. }
        rewrite !Hid. apply IH.
    + assert (forall x, written [d] x = x) as Hid.
      { intros x. unfold written. simpl. by rewrite Ed. }
      by rewrite !Hid.
Qed.

Lemma written_idemp (files : list Path) (m : gmap pystr pystr) :
  written files (written files m) = written files m.
Proof.
  revert m. induction files as [|d files IH] using rev_ind; intros m; [done|].
  rewrite !written_snoc, written_absorb. by rewrite IH.
Qed.

(** X12. With the overwrite flag and no write fault, a run leaves the
    output directory that results from writing, file after file, the text of
    every file whose conversion succeeds; a second run over the same files
    leaves that directory exactly as it is and gives every file the same
    outcome. *)
Theorem overwrite_rerun_idempotent (files : list Path) (st : tally * world) (t' : tally) :
  pending (snd st) = [] ->
  out_files (snd (run true files st)) = written files (out_files (snd st))
  /\ outcomes true files st = plain_outcome <$> files
  /\ out_files (snd (run true files (t', snd (run true files st))))
     = out_files (snd (run true files st))
  /\ outcomes true files (t', snd (run true files st)) = outcomes true files st.
Proof.
  intros Hp. destruct (run_overwrite_plain files st Hp) as (Ho & Hp1 & Hw).
  destruct (run_overwrite_plain files (t', snd (run true files st)) Hp1) as (Ho2 & _ & Hw2).
  split; [done|]. split; [done|]. split; [|congruence].
  rewrite Hw2. cbn [snd]. rewrite Hw. apply written_idemp.
Qed.

Lemma diagnostics_cons (d : Path) (files : list Path) (o : outcome) (os : list outcome) :
  diagnostics (d :: files) (o :: os)
  = match o with
    | Failed e => diagnostic d e :: diagnostics files os
    | _ => diagnostics files os
    end.
Proof. by destruct o. Qed.

Lemma length_diagnostics (files : list Path) (os : list outcome) :
  length files = length os ->
  length (diagnostics files os) = length (filter is_failed os).
Proof.
  revert os. induction files as [|d files IH]; intros [|o os]; try done.
  intros [= Hl]. rewrite diagnostics_cons, filter_cons.
  destruct o; simpl; by rewrite IH.
Qed.

(** X13. [main] returns 0 exactly when it wrote nothing to the error
    stream, and the number of lines it wrote there is the number of failed
    files. *)
Theorem silent_iff_success (args : Args) (listing : list Path) (w : world) :
  (fst (main args listing w) = 0%Z <-> stderr (snd (main args listing w)) = stderr w)
  /\ length (stderr (snd (main args listing w)))
     = (length (stderr w)
        + failed (fst (run (overwrite args) (enumerate listing) (start, w))))%nat.
Proof.
  rewrite main_status, main_streams.
  pose proof (run_failed (overwrite args) (enumerate listing) (start, w)) as Hf.
  pose proof (length_diagnostics (enumerate listing)
                (outcomes (overwrite args) (enumerate listing) (start, w))) as Hd.
  rewrite length_outcomes in Hd. specialize (Hd eq_refl). simpl in Hf.
  fold start. rewrite length_app, Hd, Hf. split; [|done].
  destruct (diagnostics _ _) as [|line ds] eqn:E; simpl in Hd.
  - rewrite <- Hd, app_nil_r. done.
  - rewrite <- Hd. simpl. split; [done|].
    intros H. apply (f_equal length) in H. rewrite length_app in H. simpl in H. lia.
Qed.

(** X14. [main] prints one line on the standard output: the notice when
    there is no candidate, the summary otherwise; the three counts of the
    summary add up to the number of candidates of the input directory. *)
Theorem main_reports_once (args : Args) (listing : list Path) (w : world) :
  stdout (snd (main args listing w))
  = stdout w
    ++ [match enumerate listing with
        | [] => py "No .odt/.ods files found in: " ++ in_dir args
        | _ => summary (fst (run (overwrite args) (enumerate listing) (start, w)))
                 (out_dir args)
        end]
  /\ (converted (fst (run (overwrite args) (enumerate listing) (start, w)))
      + skipped (fst (run (overwrite args) (enumerate listing) (start, w)))
      + failed (fst (run (overwrite args) (enumerate listing) (start, w)))
      = length (filter candidate listing))%nat.
Proof.
  split.
  - unfold main, start. destruct (enumerate listing) as [|d l]; [done|].
    pose proof (run_streams (overwrite args) (d :: l) (mkTally 0 0 0, w)) as [Hout _].
    destruct (run (overwrite args) (d :: l) (mkTally 0 0 0, w)) as [t w'].
    simpl in *. by rewrite Hout.
  - rewrite run_total, length_enumerate. done.
Qed.

End DriverFacts.

(** ** The further properties on the sample documents and directories *)

Lemma extracted_lines_trimmed_witness :
  strip (concat (itertext (para "   "))) = []
  /\ line_of (para "   ") = None.
Proof.
  split; [vm_compute; reflexivity|].
  apply (extracted_lines_trimmed (node (qname NS_office "text") nested_paragraphs)).
  vm_compute; reflexivity.
Defined.

Lemma extractor_output_shape_witness :
  odt_to_text hello_odt = Ok (py "Hello" ++ nl ++ nl ++ py "World" ++ nl)
  /\ (py "Hello" ++ nl ++ nl ++ py "World" ++ nl = []
      \/ exists t, py "Hello" ++ nl ++ nl ++ py "World" ++ nl = t ++ nl
                   /\ lstrip t = t /\ rstrip t = t).
Proof.
  assert (odt_to_text hello_odt = Ok (py "Hello" ++ nl ++ nl ++ py "World" ++ nl)) as H
    by (vm_compute; reflexivity).
  split; [exact H|].
  exact (proj1 (extractor_output_shape hello_odt
                  (py "Hello" ++ nl ++ nl ++ py "World" ++ nl)) H).
Defined.

Lemma first_heading_kept_witness :
  file data_ods
  = Archive (WellFormed (sheet_root [sheet [(qname NS_table "name", "Data")] [data_row]]))
  /\ find (qname NS_office "body")
       (sheet_root [sheet [(qname NS_table "name", "Data")] [data_row]])
     = Some (node (qname NS_office "body")
               [node (qname NS_office "spreadsheet")
                  [sheet [(qname NS_table "name", "Data")] [data_row]]])
  /\ find (qname NS_office "spreadsheet")
       (node (qname NS_office "body")
          [node (qname NS_office "spreadsheet")
             [sheet [(qname NS_table "name", "Data")] [data_row]]])
     = Some (node (qname NS_office "spreadsheet")
               [sheet [(qname NS_table "name", "Data")] [data_row]])
  /\ findall (qname NS_table "table")
       (node (qname NS_office "spreadsheet")
          [sheet [(qname NS_table "name", "Data")] [data_row]])
     = [sheet [(qname NS_table "name", "Data")] [data_row]]
  /\ exists rest, ods_to_text data_ods = Ok (py "##" ++ rest).
Proof.
  split; [reflexivity|]. split; [vm_compute; reflexivity|].
  split; [vm_compute; reflexivity|]. split; [vm_compute; reflexivity|].
  exact (proj1 (first_heading_kept data_ods
                  (sheet_root [sheet [(qname NS_table "name", "Data")] [data_row]])
                  (node (qname NS_office "body")
                     [node (qname NS_office "spreadsheet")
                        [sheet [(qname NS_table "name", "Data")] [data_row]]])
                  (node (qname NS_office "spreadsheet")
                     [sheet [(qname NS_table "name", "Data")] [data_row]])
                  (sheet [(qname NS_table "name", "Data")] [data_row]) []
                  ltac:(reflexivity) ltac:(vm_compute; reflexivity)
                  ltac:(vm_compute; reflexivity) ltac:(vm_compute; reflexivity))).
Defined.

Lemma candidate_dispatch_witness :
  candidate dot_odt
  /\ ((py ".odt" `suffix_of` name dot_odt /\ name dot_odt ≠ py ".odt"
       /\ convert_one dot_odt = odt_to_text dot_odt)
      \/ (py ".ods" `suffix_of` name dot_odt /\ name dot_odt ≠ py ".ods"
          /\ convert_one dot_odt = ods_to_text dot_odt)
      \/ ((name dot_odt = py ".odt" \/ name dot_odt = py ".ods")
          /\ convert_one dot_odt
             = Raise (Exception (py "Unsupported file type: " ++ name dot_odt)))).
Proof.
  assert (candidate dot_odt) as H by (left; by exists []).
  split; [exact H|]. apply (candidate_dispatch dot_odt H).
Defined.

Lemma other_paths_untouched_witness :
  ~ py ".txt" `suffix_of` py "hello.odt"
  /\ out_files (snd (main sample_args sample_listing full_disk_world)) !! py "hello.odt"
     = out_files full_disk_world !! py "hello.odt".
Proof.
  assert (~ py ".txt" `suffix_of` py "hello.odt") as H.
  { apply (bool_decide_eq_false_1 (py ".txt" `suffix_of` py "hello.odt")).
    vm_compute. reflexivity. }
  split; [exact H|].
  apply (other_paths_untouched sample_args sample_listing full_disk_world (py "hello.odt")).
  exact H.
Defined.

Lemma converted_text_written_witness :
  (false = false \/ NoDup (out_path <$> [hello_odt; broken_ods]))
  /\ [hello_odt; broken_ods] !! 0%nat = Some hello_odt
  /\ outcomes false [hello_odt; broken_ods] (start, empty_world) !! 0%nat = Some Converted
  /\ exists text,
       convert_one hello_odt = Ok text
       /\ out_files (snd (run false [hello_odt; broken_ods] (start, empty_world)))
            !! out_path hello_odt = Some text.
Proof.
  split; [by left|]. split; [reflexivity|]. split; [vm_compute; reflexivity|].
  exact (converted_text_written false [hello_odt; broken_ods] (start, empty_world)
           0%nat hello_odt (or_introl eq_refl) eq_refl
           ltac:(vm_compute; reflexivity)).
Defined.

Lemma overwrite_rerun_idempotent_witness :
  pending (snd (start, empty_world)) = []
  /\ out_files (snd (run true [hello_odt; broken_ods] (start, empty_world)))
     = written [hello_odt; broken_ods] (out_files (snd (start, empty_world))).
Proof.
  split; [reflexivity|].
  exact (proj1 (overwrite_rerun_idempotent [hello_odt; broken_ods] (start, empty_world)
                  start eq_refl)).
Defined.

(** The sample directory: [notes.txt] is no candidate, the others are taken
    in the order of their lower-cased names. *)
Example sample_enumeration :
  name <$> enumerate sample_listing
  = [py "broken.ods"; py "data.ods"; py "hello.odt"; py "report.odt"].
Proof. vm_compute. reflexivity. Qed.
